(** * py-staticmaps: the cairo renderer (staticmaps/cairo_renderer.py)

    A shallow embedding of [CairoRenderer] and of the part of the cairo
    drawing context it drives, with the properties of the renderer stated
    over it.

    Conventions of the embedding.
    - Python [int] is [Z]; Python [float] is [Q] (the values that occur, 9.0,
      0.25 and their differences, integer pixel offsets, are exact in binary
      floating point, and the ceiling of the float quotient
      [image_width / (2 * world_width)] is the ceiling of the exact quotient
      for every image width below 2^53). Differences that involve measured
      font extents are taken exactly; no statement rests on their value.
    - A method that mutates the renderer and may raise is a function
      [world -> world * result A]: the state reached when an exception is
      raised is kept, as it is in Python.
    - External collaborators (the tile download callback, the objects'
      [render_cairo], PIL, the cairo allocation and text-measuring calls) are
      parameters. *)

From Stdlib Require Import ZArith QArith Qround Qabs List String Lia Bool.
From stdpp Require Import base gmap strings.
Import ListNotations.

Local Open Scope Z_scope.

(** ** Python exceptions *)

Inductive exn_class : Type :=
| RuntimeError
| NotImplementedError      (* subclass of RuntimeError *)
| RecursionError           (* subclass of RuntimeError *)
| ZeroDivisionError
| NameError
| ValueError
| OSError
| UnidentifiedImageError   (* PIL; subclass of OSError *)
| MemoryError
| CairoError               (* cairo.Error; subclass of Exception *)
| KeyboardInterrupt.

(** What [except RuntimeError] catches. *)
Definition isinstance_RuntimeError (e : exn_class) : bool :=
  match e with
  | RuntimeError | NotImplementedError | RecursionError => true
  | _ => false
  end.

Inductive result (A : Type) : Type :=
| Ok (a : A)
| Raise (e : exn_class).
Arguments Ok {A} a.
Arguments Raise {A} e.

(** ** The state-and-exception monad of the renderer's methods *)

Definition M (S A : Type) : Type := S -> S * result A.

Definition ret {S A} (a : A) : M S A := fun s => (s, Ok a).

Definition raise {S A} (e : exn_class) : M S A := fun s => (s, Raise e).

Definition bind {S A B} (m : M S A) (k : A -> M S B) : M S B :=
  fun s =>
    match m s with
    | (s', Ok a) => k a s'
    | (s', Raise e) => (s', Raise e)
    end.

Declare Scope py_scope.
Delimit Scope py_scope with py.
Notation "x <- m ;; k" := (bind m (fun x => k))
  (at level 100, m at next level, right associativity) : py_scope.
Notation "m ;;; k" := (bind m (fun _ => k))
  (at level 100, right associativity) : py_scope.

(** [try: m  except RuntimeError: pass] *)
Definition try_except_RuntimeError_pass {S} (m : M S unit) : M S unit :=
  fun s =>
    match m s with
    | (s', Ok u) => (s', Ok u)
    | (s', Raise e) =>
        if isinstance_RuntimeError e then (s', Ok tt) else (s', Raise e)
    end.

(** [for x in l: body(x)] *)
Fixpoint for_each {S A} (l : list A) (body : A -> M S unit) : M S unit :=
  match l with
  | [] => ret tt
  | x :: rest => bind (body x) (fun _ => for_each rest body)
  end.

(** [range(a, b)] on integers. *)
Definition py_range (a b : Z) : list Z :=
  map (fun i => a + Z.of_nat i) (seq 0 (Z.to_nat (b - a))).

(** [int(q)]: truncation towards zero. *)
Definition py_int (q : Q) : Z := Z.quot (Qnum q) (Zpos (Qden q)).

(** [math.ceil(a / b)] for integers [a], [b] with [b <> 0]. *)
Definition math_ceil_div (a b : Z) : Z :=
  Qceiling (Qdiv (inject_Z a) (inject_Z b)).

(** ** Data *)

Definition bytes := list Byte.byte.

(** A cairo image surface: its size and its ARGB32 pixel data. *)
Record ImageSurface : Type := {
  get_width : Z;
  get_height : Z;
  get_data : bytes
}.

(** A PIL image: the container format PIL identified ([None] for an image
    that was not read from a file) and the decoded pixel data. *)
Record PIL_Image : Type := {
  format : option string;
  tobytes : bytes
}.

(** [image.format == name] *)
Definition format_is (image : PIL_Image) (name : string) : bool :=
  match format image with
  | Some f => String.eqb f name
  | None => false
  end.

(** The accessors of [Transformer] that the renderer reads. *)
Record Transformer : Type := {
  image_width : Z;
  image_height : Z;
  world_width : Z;
  zoom : Z;
  number_of_tiles : Z;
  tile_size : Z;
  tiles_x : Z;
  tiles_y : Z;
  first_tile_x : Z;
  first_tile_y : Z;
  tile_offset_x : Q;
  tile_offset_y : Q
}.

Definition image_size (t : Transformer) : Z * Z :=
  (image_width t, image_height t).

(** ** The cairo drawing context *)

(** cairo_matrix_t: x' = xx*x + xy*y + x0, y' = yx*x + yy*y + y0. *)
Record matrix : Type := {
  m_xx : Q; m_yx : Q; m_xy : Q; m_yy : Q; m_x0 : Q; m_y0 : Q
}.

Definition identity_matrix : matrix :=
  {| m_xx := 1; m_yx := 0; m_xy := 0; m_yy := 1; m_x0 := 0; m_y0 := 0 |}.

(** cairo_matrix_translate: the translation is applied before [m]. *)
Definition matrix_translate (m : matrix) (tx ty : Q) : matrix :=
  {| m_xx := m_xx m; m_yx := m_yx m; m_xy := m_xy m; m_yy := m_yy m;
     m_x0 := (tx * m_xx m + ty * m_xy m + m_x0 m)%Q;
     m_y0 := (tx * m_yx m + ty * m_yy m + m_y0 m)%Q |}.

Inductive pattern : Type :=
| SolidRGBA (r g b a : Q)
| SurfacePattern (s : ImageSurface).

(** What [save] pushes and [restore] pops. *)
Record gstate : Type := {
  ctm : matrix;
  source : pattern;
  font_face : string;
  font_size : Q
}.

Inductive path_elt : Type :=
| PMoveTo (x y : Q)
| PRectangle (x y w h : Q).

Inductive draw_op : Type :=
| OpFill (p : list path_elt) (g : gstate)
| OpStroke (p : list path_elt) (g : gstate)
| OpPaint (g : gstate)
| OpShowText (text : string) (at_point : option (Q * Q)) (g : gstate).

Record cairo_context : Type := {
  gs : gstate;
  saved : list gstate;
  path : list path_elt;
  current_point : option (Q * Q);
  canvas : list draw_op
}.

Definition with_gs (c : cairo_context) (g : gstate) : cairo_context :=
  {| gs := g; saved := saved c; path := path c;
     current_point := current_point c; canvas := canvas c |}.

Definition cairo_save (c : cairo_context) : cairo_context :=
  {| gs := gs c; saved := gs c :: saved c; path := path c;
     current_point := current_point c; canvas := canvas c |}.

(** [restore] without a matching [save] is cairo's INVALID_RESTORE. *)
Definition cairo_restore (c : cairo_context) : result cairo_context :=
  match saved c with
  | [] => Raise CairoError
  | g :: rest =>
      Ok {| gs := g; saved := rest; path := path c;
            current_point := current_point c; canvas := canvas c |}
  end.

Definition cairo_translate (tx ty : Q) (c : cairo_context) : cairo_context :=
  with_gs c {| ctm := matrix_translate (ctm (gs c)) tx ty;
               source := source (gs c); font_face := font_face (gs c);
               font_size := font_size (gs c) |}.

Definition cairo_set_source (p : pattern) (c : cairo_context) : cairo_context :=
  with_gs c {| ctm := ctm (gs c); source := p;
               font_face := font_face (gs c); font_size := font_size (gs c) |}.

Definition cairo_select_font_face (f : string) (c : cairo_context)
  : cairo_context :=
  with_gs c {| ctm := ctm (gs c); source := source (gs c);
               font_face := f; font_size := font_size (gs c) |}.

Definition cairo_set_font_size (sz : Q) (c : cairo_context) : cairo_context :=
  with_gs c {| ctm := ctm (gs c); source := source (gs c);
               font_face := font_face (gs c); font_size := sz |}.

Definition draw (op : draw_op) (c : cairo_context) : cairo_context :=
  {| gs := gs c; saved := saved c; path := path c;
     current_point := current_point c; canvas := canvas c ++ [op] |}.

Definition cairo_paint (c : cairo_context) : cairo_context :=
  draw (OpPaint (gs c)) c.

Definition cairo_rectangle (x y w h : Q) (c : cairo_context) : cairo_context :=
  {| gs := gs c; saved := saved c; path := path c ++ [PRectangle x y w h];
     current_point := Some (x, y); canvas := canvas c |}.

(** A move_to on a path: it begins a new sub-path, and one that follows
    another move_to takes its place (cairo keeps a single move_to). *)
Fixpoint path_move_to (p : list path_elt) (x y : Q) : list path_elt :=
  match p with
  | [] => [PMoveTo x y]
  | [PMoveTo _ _] => [PMoveTo x y]
  | e :: rest => e :: path_move_to rest x y
  end.

Definition cairo_move_to (x y : Q) (c : cairo_context) : cairo_context :=
  {| gs := gs c; saved := saved c; path := path_move_to (path c) x y;
     current_point := Some (x, y); canvas := canvas c |}.

Definition clear_path (c : cairo_context) : cairo_context :=
  {| gs := gs c; saved := saved c; path := [];
     current_point := None; canvas := canvas c |}.

Definition cairo_fill (c : cairo_context) : cairo_context :=
  clear_path (draw (OpFill (path c) (gs c)) c).

Definition cairo_stroke (c : cairo_context) : cairo_context :=
  clear_path (draw (OpStroke (path c) (gs c)) c).

(** ** Drawable objects and the instrumented renderer state *)

(** An overlay object: its [render_cairo] receives the renderer and may do
    anything to its context, or raise. *)
Record Object : Type := {
  obj_id : nat;
  render_cairo : cairo_context -> cairo_context * result unit
}.

(** Calls made to the collaborators, in order. *)
Inductive event : Type :=
| EvRenderCairo (obj : nat) (at_ctm : matrix)
| EvDownload (z x y : Z).

(** cairo_text_extents_t *)
Record TextExtents : Type := {
  x_bearing : Q; y_bearing : Q;
  width : Q; height : Q;
  x_advance : Q; y_advance : Q
}.

(** The module-level state [cairo_is_supported] and [__init__] read:
    [sys.modules] (its key set) and whether the guarded [import cairo] at the
    top of the module bound the name [cairo]. *)
Record interpreter : Type := {
  sys_modules : gset string;
  cairo_imported : bool
}.

Record CairoRenderer : Type := {
  _trans : Transformer;
  _surface : ImageSurface;
  _context : cairo_context
}.

Definition Qlt_bool (a b : Q) : bool := negb (Qle_bool b a).

(** What a render method acts on: the renderer's cairo context, the calls
    made so far, and the state of the tile provider behind the download
    callback. *)
Record world (D : Type) : Type := {
  context : cairo_context;
  trace : list event;
  provider : D
}.
Arguments context {D} w.
Arguments trace {D} w.
Arguments provider {D} w.

Section Renderer.

(** The state of the tile provider behind the download callback. *)
Variable D : Type.

(** PIL: [Image.open(io.BytesIO(data))] and [image.save(buf, format="PNG")]. *)
Variable PIL_Image_open : bytes -> result PIL_Image.
Variable PIL_Image_save_PNG : PIL_Image -> result bytes.

(** cairo: [ImageSurface.create_from_png], [ImageSurface(FORMAT_ARGB32, w, h)],
    [Context.font_extents] and [Context.text_extents]; the two measuring
    calls depend on the font face, the font size and the current
    transformation. *)
Variable create_from_png : bytes -> result ImageSurface.
Variable new_ImageSurface_ARGB32 : Z -> Z -> result ImageSurface.
Variable font_extents : string -> Q -> matrix -> Q * Q * Q * Q * Q.
Variable text_extents : string -> Q -> matrix -> string -> TextExtents.

(** [WHITE.float_rgb()] and [BLACK.float_rgb()] of staticmaps/color.py. *)
Variable WHITE_float_rgb : Q * Q * Q.
Variable BLACK_float_rgb : Q * Q * Q.

Definition download_fn : Type := D -> Z -> Z -> Z -> D * result (option bytes).

Local Open Scope py_scope.

(** Run a context operation that cannot fail on [self._context]. *)
Definition on_context (f : cairo_context -> cairo_context) : M (world D) unit :=
  fun w => ({| context := f (context w); trace := trace w;
               provider := provider w |}, Ok tt).

Definition context_restore : M (world D) unit :=
  fun w =>
    match cairo_restore (context w) with
    | Ok c => ({| context := c; trace := trace w; provider := provider w |},
               Ok tt)
    | Raise e => (w, Raise e)
    end.

(** [obj.render_cairo(self)] *)
Definition call_render_cairo (obj : Object) : M (world D) unit :=
  fun w =>
    let '(c, r) := render_cairo obj (context w) in
    ({| context := c;
        trace := trace w ++ [EvRenderCairo (obj_id obj) (ctm (gs (context w)))];
        provider := provider w |}, r).

(** [download(zoom, x, y)] *)
Definition call_download (download : download_fn) (z x y : Z)
  : M (world D) (option bytes) :=
  fun w =>
    let '(d, r) := download (provider w) z x y in
    ({| context := context w; trace := trace w ++ [EvDownload z x y];
        provider := d |}, r).

Definition lift {A} (r : result A) : M (world D) A := fun w => (w, r).

(** *** cairo_is_supported, CairoRenderer.__init__ *)

Definition cairo_is_supported : M interpreter bool :=
  fun st => (st, Ok (bool_decide ("cairo"%string ∈ sys_modules st))).

Definition default_gstate : gstate :=
  {| ctm := identity_matrix; source := SolidRGBA 0 0 0 1;
     font_face := ""; font_size := 10 |}.

(** [cairo.Context(surface)] *)
Definition new_Context (s : ImageSurface) : cairo_context :=
  {| gs := default_gstate; saved := []; path := [];
     current_point := None; canvas := [] |}.

(** Modelled from the spec: staticmaps/renderer.py is not among the sources;
    [Renderer.__init__] keeps the transformer the renderer consumes. *)
Definition Renderer_init (transformer : Transformer) : Transformer :=
  transformer.

Definition __init__ (transformer : Transformer) : M interpreter CairoRenderer :=
  let trans := Renderer_init transformer in
  supported <- cairo_is_supported ;;
  if negb supported then raise RuntimeError
  else
    fun st =>
      if negb (cairo_imported st) then (st, Raise NameError)
      else
        let '(w, h) := image_size trans in
        match new_ImageSurface_ARGB32 w h with
        | Raise e => (st, Raise e)
        | Ok surface =>
            (st, Ok {| _trans := trans; _surface := surface;
                       _context := new_Context surface |})
        end.

(** *** create_image *)

Definition create_image (image_data : bytes) : result ImageSurface :=
  match PIL_Image_open image_data with
  | Raise e => Raise e
  | Ok image =>
      if format_is image "PNG" then create_from_png image_data
      else
        match PIL_Image_save_PNG image with
        | Raise e => Raise e
        | Ok png_bytes => create_from_png png_bytes
        end
  end.

(** *** render_objects *)

Definition render_objects (trans : Transformer) (objects : list Object)
    (tighten : bool) : M (world D) unit :=
  if 2 * world_width trans =? 0 then raise ZeroDivisionError
  else
    let x_count := math_ceil_div (image_width trans) (2 * world_width trans) in
    for_each objects (fun obj =>
      for_each (py_range (- x_count) (x_count + 1)) (fun p =>
        on_context cairo_save ;;;
        on_context (cairo_translate (inject_Z (p * world_width trans)) 0) ;;;
        call_render_cairo obj ;;;
        context_restore)).

(** *** fetch_tile, render_tiles *)

Definition fetch_tile (trans : Transformer) (download : download_fn)
    (x y : Z) : M (world D) (option ImageSurface) :=
  image_data <- call_download download (zoom trans) x y ;;
  match image_data with
  | None => ret None
  | Some data => img <- lift (create_image data) ;; ret (Some img)
  end.

(** [a % n] *)
Definition py_mod (a n : Z) : M (world D) Z :=
  if n =? 0 then raise ZeroDivisionError else ret (a mod n).

(** The body of the inner loop (lines 137-151). *)
Definition render_tile_cell (trans : Transformer) (download : download_fn)
    (yy y xx : Z) : M (world D) unit :=
  x <- py_mod (first_tile_x trans + xx) (number_of_tiles trans) ;;
  try_except_RuntimeError_pass
    (tile_img <- fetch_tile trans download x y ;;
     match tile_img with
     | None => ret tt
     | Some img =>
         on_context cairo_save ;;;
         on_context (cairo_translate
           (inject_Z (py_int (inject_Z (xx * tile_size trans) + tile_offset_x trans)))
           (inject_Z (py_int (inject_Z (yy * tile_size trans) + tile_offset_y trans)))) ;;;
         on_context (cairo_set_source (SurfacePattern img)) ;;;
         on_context cairo_paint ;;;
         context_restore
     end).

(** The body of the outer loop (lines 133-151). *)
Definition render_tile_row (trans : Transformer) (download : download_fn)
    (yy : Z) : M (world D) unit :=
  let y := first_tile_y trans + yy in
  if (y <? 0) || (y >=? number_of_tiles trans) then ret tt
  else
    for_each (py_range 0 (tiles_x trans))
      (fun xx => render_tile_cell trans download yy y xx).

Definition render_tiles (trans : Transformer) (download : download_fn)
    (objects : list Object) (tighten : bool) : M (world D) unit :=
  for_each (py_range 0 (tiles_y trans)) (render_tile_row trans download).

(** *** render_attribution *)

Definition context_font_extents (c : cairo_context) : Q * Q * Q * Q * Q :=
  font_extents (font_face (gs c)) (font_size (gs c)) (ctm (gs c)).

Definition context_text_extents (c : cairo_context) (text : string)
  : TextExtents :=
  text_extents (font_face (gs c)) (font_size (gs c)) (ctm (gs c)) text.

(** The [while True] loop (lines 164-170); [None] when [fuel] iterations
    were not enough to reach the [break]. On exit: the context, [f_descent]
    and [f_height]. *)
Fixpoint shrink_font (fuel : nat) (attribution : string) (width_px : Z)
    (font_size : Q) (c : cairo_context) : option (cairo_context * Q * Q) :=
  match fuel with
  | O => None
  | S fuel' =>
      let c1 := cairo_set_font_size font_size c in
      let '(_, f_descent, f_height, _, _) := context_font_extents c1 in
      let t_width := width (context_text_extents c1 attribution) in
      if Qlt_bool t_width (inject_Z (width_px - 4)) then
        Some (c1, f_descent, f_height)
      else shrink_font fuel' attribution width_px (font_size - 0.25)%Q c1
  end.

(** [show_text]: nothing for a text without glyphs; otherwise the text is
    drawn at the current point (the origin when there is none) and cairo
    ends with a move_to to where the next glyph would go. *)
Definition cairo_show_text (text : string) (c : cairo_context) : cairo_context :=
  match text with
  | ""%string => c
  | _ =>
      let adv := context_text_extents c text in
      let '(x, y) := match current_point c with
                     | Some pt => pt
                     | None => (0, 0)%Q
                     end in
      cairo_move_to (x + x_advance adv)%Q (y + y_advance adv)%Q
        (draw (OpShowText text (current_point c) (gs c)) c)
  end.

Definition set_source_rgb (rgb : Q * Q * Q) (alpha : Q) : cairo_context -> cairo_context :=
  let '(r, g, b) := rgb in cairo_set_source (SolidRGBA r g b alpha).

(** The drawing after the loop (lines 171-178). *)
Definition draw_attribution (attribution : string) (w h : Z)
    (f_descent f_height : Q) (c : cairo_context) : cairo_context :=
  let c := set_source_rgb WHITE_float_rgb 0.8 c in
  let c := cairo_rectangle 0 (inject_Z h - f_height - f_descent - 2)
                           (inject_Z w) (inject_Z h) c in
  let c := cairo_fill c in
  let c := set_source_rgb BLACK_float_rgb 1 c in
  let c := cairo_move_to 4 (inject_Z h - f_descent - 2) c in
  let c := cairo_show_text attribution c in
  cairo_stroke c.

Definition render_attribution (fuel : nat) (trans : Transformer)
    (attribution : option string) : world D -> option (world D * result unit) :=
  fun w =>
    match attribution with
    | None => Some (w, Ok tt)
    | Some ""%string => Some (w, Ok tt)
    | Some text =>
        let '(width_px, height_px) := image_size trans in
        let c := cairo_select_font_face "Sans" (context w) in
        match shrink_font fuel text width_px 9.0 c with
        | None => None
        | Some (c1, f_descent, f_height) =>
            Some ({| context :=
                       draw_attribution text width_px height_px
                                        f_descent f_height c1;
                     trace := trace w; provider := provider w |}, Ok tt)
        end
    end.

(** *** The tile loop, cell by cell *)

(** The cells (yy, xx) the double loop of [render_tiles] reaches, in the
    order it reaches them. *)
Definition tile_cells (trans : Transformer) : list (Z * Z) :=
  flat_map
    (fun yy =>
       let y := first_tile_y trans + yy in
       if (y <? 0) || (y >=? number_of_tiles trans) then []
       else map (fun xx => (yy, xx)) (py_range 0 (tiles_x trans)))
    (py_range 0 (tiles_y trans)).

(** The inner loop body run over a list of cells. *)
Definition render_cells (trans : Transformer) (download : download_fn)
    (cells : list (Z * Z)) : M (world D) unit :=
  for_each cells
    (fun c => render_tile_cell trans download
                (fst c) (first_tile_y trans + fst c) (snd c)).

(** The state right after [download(z, x, y)] came back with provider
    state [d]: the call is recorded, the drawing context is untouched. *)
Definition downloaded (w : world D) (z x y : Z) (d : D) : world D :=
  {| context := context w; trace := trace w ++ [EvDownload z x y];
     provider := d |}.

End Renderer.

Arguments download_fn D : clear implicits.
Arguments on_context {D} f w.
Arguments context_restore {D} w.
Arguments call_render_cairo {D} obj w.
Arguments call_download {D} download z x y w.
Arguments lift {D A} r w.
Arguments py_mod {D} a n w.
Arguments render_objects {D} trans objects tighten w.
Arguments fetch_tile {D} PIL_Image_open PIL_Image_save_PNG create_from_png
  trans download x y w.
Arguments render_tile_cell {D} PIL_Image_open PIL_Image_save_PNG create_from_png
  trans download yy y xx w.
Arguments render_tile_row {D} PIL_Image_open PIL_Image_save_PNG create_from_png
  trans download yy w.
Arguments render_tiles {D} PIL_Image_open PIL_Image_save_PNG create_from_png
  trans download objects tighten w.
Arguments render_cells {D} PIL_Image_open PIL_Image_save_PNG create_from_png
  trans download cells w.
Arguments render_attribution {D} font_extents text_extents WHITE_float_rgb
  BLACK_float_rgb fuel trans attribution w.
Arguments downloaded {D} w z x y d.

(** ** Vocabulary of the statements *)

(** An object whose [render_cairo] never raises. *)
Definition returns_normally (obj : Object) : Prop :=
  forall c, snd (render_cairo obj c) = Ok tt.

(** An object that leaves the stack of saved graphics states as it found it
    (every [save] of its own matched by a [restore]). *)
Definition balanced (obj : Object) : Prop :=
  forall c c', render_cairo obj c = (c', Ok tt) -> saved c' = saved c.

(** A download request for a cell of the tile grid, with both indices inside
    [0, number_of_tiles). *)
Definition wrapped_tile_request (trans : Transformer) (ev : event) : Prop :=
  exists xx yy,
    0 <= xx < tiles_x trans /\ 0 <= yy < tiles_y trans /\
    ev = EvDownload (zoom trans)
           ((first_tile_x trans + xx) mod number_of_tiles trans)
           (first_tile_y trans + yy) /\
    0 <= (first_tile_x trans + xx) mod number_of_tiles trans
      < number_of_tiles trans /\
    0 <= first_tile_y trans + yy < number_of_tiles trans.

(** The font size tried by the k-th iteration of the shrinking loop. *)
Fixpoint nth_font_size (k : nat) : Q :=
  match k with
  | O => 9.0
  | S k' => (nth_font_size k' - 0.25)%Q
  end.

(** The exit test [t_width < width - 4] of the iteration that tries font size
    [sz] on context [c]. *)
Definition exits (text_extents : string -> Q -> matrix -> string -> TextExtents)
    (text : string) (width_px : Z) (c : cairo_context) (sz : Q) : bool :=
  Qlt_bool (width (context_text_extents text_extents
                     (cairo_set_font_size sz c) text))
           (inject_Z (width_px - 4)).

(** The download request the loop makes for cell (yy, xx). *)
Definition tile_request (trans : Transformer) (c : Z * Z) : event :=
  EvDownload (zoom trans)
    ((first_tile_x trans + snd c) mod number_of_tiles trans)
    (first_tile_y trans + fst c).

(** Does the text fit at the k-th font size? (the loop's exit test) *)
Definition fits (text_extents : string -> Q -> matrix -> string -> TextExtents)
    (m : matrix) (text : string) (width_px : Z) (k : nat) : bool :=
  Qlt_bool (width (text_extents "Sans"%string (nth_font_size k) m text))
           (inject_Z (width_px - 4)).

(** [f_descent] and [f_height] of the tuple [font_extents()] returns. *)
Definition f_descent_of (fe : Q * Q * Q * Q * Q) : Q :=
  let '(_, f_descent, _, _, _) := fe in f_descent.

Definition f_height_of (fe : Q * Q * Q * Q * Q) : Q :=
  let '(_, _, f_height, _, _) := fe in f_height.

(** The context after one world copy of [obj] at offset [p] that returned
    with the stack balanced: the graphics state and the stack of saved states
    are those of before; the path, the current point and the canvas are what
    [render_cairo] left when run on the saved context translated by
    p * world_width. *)
Definition after_copy (trans : Transformer) (obj : Object) (p : Z)
    (c : cairo_context) : cairo_context :=
  let c1 := fst (render_cairo obj
                   (cairo_translate (inject_Z (p * world_width trans)) 0
                      (cairo_save c))) in
  {| gs := gs c; saved := saved c; path := path c1;
     current_point := current_point c1; canvas := canvas c1 |}.

(** A PNG byte stream, as PIL identifies it. *)
Definition is_PNG (PIL_Image_open : bytes -> result PIL_Image) (b : bytes)
    (pixels : bytes) : Prop :=
  exists image, PIL_Image_open b = Ok image /\
                format image = Some "PNG"%string /\ tobytes image = pixels.

(** The context after a tile was painted at cell (yy, xx): one paint of the
    tile surface under the cell's translation, everything else as before. *)
Definition paint_tile (trans : Transformer) (yy xx : Z) (img : ImageSurface)
    (c : cairo_context) : cairo_context :=
  draw (OpPaint
          {| ctm := matrix_translate (ctm (gs c))
               (inject_Z (py_int (inject_Z (xx * tile_size trans) + tile_offset_x trans)))
               (inject_Z (py_int (inject_Z (yy * tile_size trans) + tile_offset_y trans)));
             source := SurfacePattern img;
             font_face := font_face (gs c); font_size := font_size (gs c) |})
       c.

(** ** Sample inputs *)

(** Zoom 1 (2 x 2 tiles of 256 px), a 600 x 300 viewport whose tile window
    starts one column and one row before the grid. *)
Definition sample_trans : Transformer :=
  {| image_width := 600; image_height := 300; world_width := 512;
     zoom := 1; number_of_tiles := 2; tile_size := 256;
     tiles_x := 2; tiles_y := 3; first_tile_x := -1; first_tile_y := -1;
     tile_offset_x := (-21) # 2; tile_offset_y := -106 |}.

(** The same, 4 pixels wide. *)
Definition narrow_trans : Transformer :=
  {| image_width := 4; image_height := 300; world_width := 512;
     zoom := 1; number_of_tiles := 2; tile_size := 256;
     tiles_x := 2; tiles_y := 3; first_tile_x := -1; first_tile_y := -1;
     tile_offset_x := (-21) # 2; tile_offset_y := -106 |}.

(** The same, 20 pixels wide. *)
Definition banner_trans : Transformer :=
  {| image_width := 20; image_height := 300; world_width := 512;
     zoom := 1; number_of_tiles := 2; tile_size := 256;
     tiles_x := 2; tiles_y := 3; first_tile_x := -1; first_tile_y := -1;
     tile_offset_x := (-21) # 2; tile_offset_y := -106 |}.

(** The same, 40000 pixels wide and high. *)
Definition huge_trans : Transformer :=
  {| image_width := 40000; image_height := 40000; world_width := 512;
     zoom := 1; number_of_tiles := 2; tile_size := 256;
     tiles_x := 158; tiles_y := 158; first_tile_x := -78; first_tile_y := -78;
     tile_offset_x := 0; tile_offset_y := 0 |}.

Definition fresh_context : cairo_context :=
  {| gs := {| ctm := identity_matrix; source := SolidRGBA 0 0 0 1;
              font_face := ""; font_size := 10 |};
     saved := []; path := []; current_point := None; canvas := [] |}.

Definition fresh_world : world unit :=
  {| context := fresh_context; trace := []; provider := tt |}.

(** An image codec with one-byte signatures: x89 starts a PNG stream, xff a
    JPEG stream, the rest of the stream is the pixel data; anything else is
    not an image. *)
Definition signature_open (data : bytes) : result PIL_Image :=
  match data with
  | Byte.x89 :: px => Ok {| format := Some "PNG"%string; tobytes := px |}
  | Byte.xff :: px => Ok {| format := Some "JPEG"%string; tobytes := px |}
  | _ => Raise UnidentifiedImageError
  end.

Definition signature_save_PNG (image : PIL_Image) : result bytes :=
  Ok (Byte.x89 :: tobytes image).

Definition signature_create_from_png (data : bytes) : result ImageSurface :=
  match data with
  | Byte.x89 :: px =>
      Ok {| get_width := Z.of_nat (length px); get_height := 1;
            get_data := px |}
  | _ => Raise MemoryError
  end.

(** A decoder that reports unreadable data with a RuntimeError. *)
Definition strict_open (data : bytes) : result PIL_Image :=
  match signature_open data with
  | Ok image => Ok image
  | Raise _ => Raise RuntimeError
  end.

Definition png_tile : bytes := [Byte.x89; Byte.x01; Byte.x02].
Definition jpeg_tile : bytes := [Byte.xff; Byte.x01; Byte.x02].
Definition junk_tile : bytes := [Byte.x00; Byte.x00].

(** Tile providers. The first fails on tile (x, y) = (1, 0) the way the
    repository's downloader reports an HTTP status other than 200; the second
    fails there the way a dropped connection surfaces (an OSError); the third
    has no tile there; the fourth serves bytes that are not an image. *)
Definition download_status_error : download_fn unit :=
  fun _ z x y =>
    if (x =? 1) && (y =? 0) then (tt, Raise RuntimeError)
    else (tt, Ok (Some png_tile)).

Definition download_connection_error : download_fn unit :=
  fun _ z x y =>
    if (x =? 1) && (y =? 0) then (tt, Raise OSError)
    else (tt, Ok (Some png_tile)).

Definition download_absent : download_fn unit :=
  fun _ z x y =>
    if (x =? 1) && (y =? 0) then (tt, Ok None)
    else (tt, Ok (Some jpeg_tile)).

Definition download_junk : download_fn unit :=
  fun _ z x y =>
    if (x =? 1) && (y =? 0) then (tt, Ok (Some junk_tile))
    else (tt, Ok (Some png_tile)).

(** Objects: one strokes a mark; one moves the origin and saves without
    restoring. *)
Definition mark : Object :=
  {| obj_id := 7;
     render_cairo := fun c => (cairo_stroke (cairo_move_to 10 10 c), Ok tt) |}.

Definition leaky : Object :=
  {| obj_id := 8;
     render_cairo := fun c => (cairo_save (cairo_translate 1 0 c), Ok tt) |}.

(** cairo's image surface allocation: sizes outside [0, 32767] are refused
    (the pixel buffer is not modelled). *)
Definition checked_ImageSurface (w h : Z) : result ImageSurface :=
  if (0 <=? w) && (w <=? 32767) && (0 <=? h) && (h <=? 32767)
  then Ok {| get_width := w; get_height := h; get_data := [] |}
  else Raise CairoError.

Definition with_cairo : interpreter :=
  {| sys_modules := {[ "sys"%string; "cairo"%string ]}; cairo_imported := true |}.

Definition without_cairo : interpreter :=
  {| sys_modules := {[ "sys"%string ]}; cairo_imported := false |}.

(** Text measuring in which every glyph is half as wide as the font size,
    widths being those of the ink box, never negative. *)
Definition half_em_text_extents (face : string) (size : Q) (m : matrix)
    (text : string) : TextExtents :=
  let w := (Qabs size * inject_Z (Z.of_nat (String.length text)) * 0.5)%Q in
  {| x_bearing := 0; y_bearing := (- Qabs size)%Q; width := w;
     height := Qabs size; x_advance := w; y_advance := 0 |}.

Definition half_em_font_extents (face : string) (size : Q) (m : matrix)
    : Q * Q * Q * Q * Q :=
  (size * 0.9, size * 0.2, size * 1.2, size, 0)%Q.

(** ** render_background *)

Section Background.

Variable D : Type.

(** [Color] and [Color.float_rgb()] of staticmaps/color.py. *)
Variable Color : Type.
Variable float_rgb : Color -> Q * Q * Q.

Definition render_background (trans : Transformer) (color : option Color)
  : M (world D) unit :=
  match color with
  | None => ret tt
  | Some col =>
      bind (on_context (set_source_rgb (float_rgb col) 1)) (fun _ =>
      bind (let '(w, h) := image_size trans in
            on_context (cairo_rectangle 0 0 (inject_Z w) (inject_Z h)))
           (fun _ => on_context cairo_fill))
  end.

End Background.

Arguments render_background {D Color} float_rgb trans color w.

(** The paint [render_tiles] makes for cell (yy, xx) with tile surface [img],
    on a context whose graphics state is [g]. *)
Definition tile_paint_op (trans : Transformer) (g : gstate) (yy xx : Z)
    (img : ImageSurface) : draw_op :=
  OpPaint
    {| ctm := matrix_translate (ctm g)
         (inject_Z (py_int (inject_Z (xx * tile_size trans) + tile_offset_x trans)))
         (inject_Z (py_int (inject_Z (yy * tile_size trans) + tile_offset_y trans)));
       source := SurfacePattern img;
       font_face := font_face g; font_size := font_size g |}.

(** A provider that serves the same PNG tile everywhere, and the surface the
    one-byte-signature codec decodes it to. *)
Definition download_all_png : download_fn unit :=
  fun _ z x y => (tt, Ok (Some png_tile)).

Definition png_tile_surface : ImageSurface :=
  {| get_width := 2; get_height := 1; get_data := [Byte.x01; Byte.x02] |}.

(** An object whose [render_cairo] raises ValueError without touching the
    context. *)
Definition failing : Object :=
  {| obj_id := 9; render_cairo := fun c => (c, Raise ValueError) |}.

(** The sample transformer with a world width of zero. *)
Definition flat_trans : Transformer :=
  {| image_width := 600; image_height := 300; world_width := 0;
     zoom := 1; number_of_tiles := 2; tile_size := 256;
     tiles_x := 2; tiles_y := 3; first_tile_x := -1; first_tile_y := -1;
     tile_offset_x := (-21) # 2; tile_offset_y := -106 |}.

(** Zoom 0 (one tile), a window five columns wide. *)
Definition world_trans : Transformer :=
  {| image_width := 1000; image_height := 200; world_width := 256;
     zoom := 0; number_of_tiles := 1; tile_size := 256;
     tiles_x := 5; tiles_y := 1; first_tile_x := -2; first_tile_y := 0;
     tile_offset_x := -140; tile_offset_y := -28 |}.

(** ** Loops, ranges and the ceiling *)

Lemma length_py_range (a b : Z) : length (py_range a b) = Z.to_nat (b - a).
Proof. unfold py_range. now rewrite length_map, length_seq. Qed.

Lemma in_py_range (a b p : Z) : In p (py_range a b) <-> a <= p < b.
Proof.
  unfold py_range. rewrite in_map_iff. split.
  - intros (i & <- & Hi). apply in_seq in Hi. lia.
  - intros Hp. exists (Z.to_nat (p - a)). split; [lia|].
    apply in_seq. lia.
Qed.

Lemma math_ceil_div_pos (a b : Z) :
  0 < b -> math_ceil_div a b = - ((- a) / b).
Proof.
  intros Hb. destruct b as [|q|q]; try lia.
  unfold math_ceil_div, Qceiling, Qfloor, Qdiv, Qinv, Qopp, Qmult, inject_Z.
  simpl. now rewrite Z.mul_1_r.
Qed.

(** [math_ceil_div a b] is the least integer that is at least a/b. *)
Lemma math_ceil_div_bounds (a b : Z) :
  0 < b -> (math_ceil_div a b - 1) * b < a <= math_ceil_div a b * b.
Proof.
  intros Hb. rewrite math_ceil_div_pos by assumption.
  pose proof (Z.div_mod (- a) b ltac:(lia)).
  pose proof (Z.mod_pos_bound (- a) b Hb). nia.
Qed.

Lemma for_each_app {S A} (l1 l2 : list A) (body : A -> M S unit) (s : S) :
  for_each (l1 ++ l2) body s =
  match for_each l1 body s with
  | (s1, Ok _) => for_each l2 body s1
  | (s1, Raise e) => (s1, Raise e)
  end.
Proof.
  revert s. induction l1 as [|x l1 IH]; intros s; simpl.
  - reflexivity.
  - unfold bind. destruct (body x s) as [s1 [[]|e]]; [apply IH|reflexivity].
Qed.

Lemma for_each_flat_map {S A B} (f : A -> list B) (l : list A)
    (body : B -> M S unit) (s : S) :
  for_each (flat_map f l) body s =
  for_each l (fun a => for_each (f a) body) s.
Proof.
  revert s. induction l as [|a l IH]; intros s; simpl.
  - reflexivity.
  - rewrite for_each_app. unfold bind.
    destruct (for_each (f a) body s) as [s1 [[]|e]]; [apply IH|reflexivity].
Qed.

Lemma for_each_map {S A B} (f : A -> B) (l : list A)
    (body : B -> M S unit) (s : S) :
  for_each (map f l) body s = for_each l (fun a => body (f a)) s.
Proof.
  revert s. induction l as [|a l IH]; intros s; simpl.
  - reflexivity.
  - unfold bind. destruct (body (f a) s) as [s1 [[]|e]]; [apply IH|reflexivity].
Qed.

Lemma for_each_ext {S A} (l : list A) (body1 body2 : A -> M S unit) (s : S) :
  (forall x s', In x l -> body1 x s' = body2 x s') ->
  for_each l body1 s = for_each l body2 s.
Proof.
  revert s. induction l as [|a l IH]; intros s H; simpl.
  - reflexivity.
  - unfold bind. rewrite H by (now left).
    destruct (body2 a s) as [s1 [[]|e]]; [|reflexivity].
    apply IH. intros x s' Hx. apply H. now right.
Qed.

(** A property of the state kept by every iteration is kept by the loop,
    however the loop ends. *)
Lemma for_each_preserves {S A} (I : S -> Prop) (l : list A)
    (body : A -> M S unit) :
  (forall x s, In x l -> I s -> I (fst (body x s))) ->
  forall s, I s -> I (fst (for_each l body s)).
Proof.
  induction l as [|a l IH]; intros H s Hs; simpl.
  - exact Hs.
  - unfold bind. specialize (H a s (or_introl eq_refl) Hs) as Ha.
    destruct (body a s) as [s1 [[]|e]]; simpl in *; [|exact Ha].
    apply IH; [|exact Ha]. intros x s' Hx. apply H. now right.
Qed.

(** ** render_objects: one pass over the world copies *)

Section RenderObjects.

Context {D : Type}.
Variable trans : Transformer.

(** One iteration of the inner loop (lines 102-105). *)
Lemma render_shifted_copy (obj : Object) (p : Z) (w : world D) :
  returns_normally obj -> balanced obj ->
  exists w',
    (on_context cairo_save ;;;
     on_context (cairo_translate (inject_Z (p * world_width trans)) 0) ;;;
     call_render_cairo obj ;;;
     context_restore)%py w = (w', Ok tt) /\
    gs (context w') = gs (context w) /\
    saved (context w') = saved (context w) /\
    provider w' = provider w /\
    trace w' = trace w ++
      [EvRenderCairo (obj_id obj)
         (matrix_translate (ctm (gs (context w)))
                           (inject_Z (p * world_width trans)) 0)].
Proof.
  intros Hret Hbal. unfold bind, on_context, call_render_cairo. simpl.
  destruct (render_cairo obj _) as [c r] eqn:Hc.
  pose proof (Hret (cairo_translate (inject_Z (p * world_width trans)) 0
                      (cairo_save (context w)))) as Hr.
  rewrite Hc in Hr. simpl in Hr. subst r.
  apply Hbal in Hc. simpl in Hc.
  unfold context_restore, cairo_restore. simpl. rewrite Hc.
  eexists. split; [reflexivity|]. simpl. auto.
Qed.

(** The inner loop over a list of offsets. *)
Lemma render_copies (obj : Object) (ps : list Z) (w : world D) :
  returns_normally obj -> balanced obj ->
  exists w',
    for_each ps (fun p =>
      on_context cairo_save ;;;
      on_context (cairo_translate (inject_Z (p * world_width trans)) 0) ;;;
      call_render_cairo obj ;;;
      context_restore)%py w = (w', Ok tt) /\
    gs (context w') = gs (context w) /\
    saved (context w') = saved (context w) /\
    provider w' = provider w /\
    trace w' = trace w ++
      map (fun p => EvRenderCairo (obj_id obj)
                      (matrix_translate (ctm (gs (context w)))
                                        (inject_Z (p * world_width trans)) 0))
          ps.
Proof.
  intros Hret Hbal. revert w.
  induction ps as [|p ps IH]; intros w; simpl.
  - exists w. rewrite app_nil_r. auto.
  - destruct (render_shifted_copy obj p w Hret Hbal)
      as (w1 & Hrun & Hgs & Hsaved & Hprov & Htrace).
    destruct (IH w1) as (w2 & Hrun2 & Hgs2 & Hsaved2 & Hprov2 & Htrace2).
    exists w2. unfold bind at 1. rewrite Hrun. split; [exact Hrun2|].
    rewrite Hgs2, Hsaved2, Hprov2, Htrace2, Htrace, Hgs, <- app_assoc.
    auto.
Qed.

End RenderObjects.

Lemma for_each_preserves_Ok {S A} (I : S -> Prop) (l : list A)
    (body : A -> M S unit) :
  (forall x s s', In x l -> I s -> body x s = (s', Ok tt) -> I s') ->
  forall s s', I s -> for_each l body s = (s', Ok tt) -> I s'.
Proof.
  induction l as [|a l IH]; intros H s s' Hs; simpl.
  - unfold ret. intros [= <-]. exact Hs.
  - unfold bind. destruct (body a s) as [s1 [[]|e]] eqn:Ha; [|discriminate].
    apply IH.
    + intros x t t' Hx. apply H. now right.
    + apply (H a s s1); auto. now left.
Qed.

Section RenderObjectsLoops.

Context {D : Type}.
Variable trans : Transformer.

Lemma render_all_copies (objects : list Object) (ps : list Z) (w : world D) :
  Forall returns_normally objects -> Forall balanced objects ->
  exists w',
    for_each objects (fun obj =>
      for_each ps (fun p =>
        on_context cairo_save ;;;
        on_context (cairo_translate (inject_Z (p * world_width trans)) 0) ;;;
        call_render_cairo obj ;;;
        context_restore))%py w = (w', Ok tt) /\
    gs (context w') = gs (context w) /\
    trace w' = trace w ++
      flat_map (fun obj =>
        map (fun p => EvRenderCairo (obj_id obj)
                        (matrix_translate (ctm (gs (context w)))
                           (inject_Z (p * world_width trans)) 0)) ps)
        objects.
Proof.
  intros Hret Hbal. revert w.
  induction objects as [|obj rest IH]; intros w; simpl.
  - exists w. rewrite app_nil_r. auto.
  - inversion Hret as [|? ? Hret1 Hret2]; subst.
    inversion Hbal as [|? ? Hbal1 Hbal2]; subst.
    destruct (render_copies trans obj ps w Hret1 Hbal1)
      as (w1 & Hrun & Hgs & _ & _ & Htrace).
    destruct (IH Hret2 Hbal2 w1) as (w2 & Hrun2 & Hgs2 & Htrace2).
    exists w2. unfold bind at 1. rewrite Hrun. split; [exact Hrun2|].
    rewrite Hgs2, Htrace2, Htrace, Hgs, <- app_assoc. auto.
Qed.

(** One iteration of the inner loop that returned: the graphics state and
    the stack of saved states are back to what they were. *)
Lemma shifted_copy_restores (obj : Object) (p : Z) (w w' : world D) :
  balanced obj ->
  (on_context cairo_save ;;;
   on_context (cairo_translate (inject_Z (p * world_width trans)) 0) ;;;
   call_render_cairo obj ;;;
   context_restore)%py w = (w', Ok tt) ->
  gs (context w') = gs (context w) /\ saved (context w') = saved (context w).
Proof.
  intros Hbal. unfold bind, on_context, call_render_cairo. simpl.
  destruct (render_cairo obj _) as [c [[]|e]] eqn:Hc; [|discriminate].
  apply Hbal in Hc. simpl in Hc.
  unfold context_restore, cairo_restore. simpl. rewrite Hc.
  intros [= <-]. simpl. auto.
Qed.

End RenderObjectsLoops.

Section RenderObjectsRun.

Context {D : Type}.
Variable trans : Transformer.

(** One iteration of the inner loop, in full: the object has been run on the
    saved and translated context, and the graphics state restored. *)
Lemma render_shifted_copy_run (obj : Object) (p : Z) (w : world D) :
  returns_normally obj -> balanced obj ->
  (on_context cairo_save ;;;
   on_context (cairo_translate (inject_Z (p * world_width trans)) 0) ;;;
   call_render_cairo obj ;;;
   context_restore)%py w
  = ({| context := after_copy trans obj p (context w);
        trace := trace w ++
          [EvRenderCairo (obj_id obj)
             (matrix_translate (ctm (gs (context w)))
                               (inject_Z (p * world_width trans)) 0)];
        provider := provider w |}, Ok tt).
Proof.
  intros Hret Hbal. unfold bind, on_context, call_render_cairo, after_copy.
  cbn [context trace provider].
  pose proof (Hret (cairo_translate (inject_Z (p * world_width trans)) 0
                      (cairo_save (context w)))) as Hr.
  destruct (render_cairo obj _) as [c r] eqn:Hc.
  cbn [snd] in Hr. subst r. cbn [fst].
  apply Hbal in Hc. cbn [cairo_translate cairo_save with_gs saved] in Hc.
  unfold context_restore, cairo_restore. cbn [context trace provider].
  rewrite Hc. reflexivity.
Qed.

Lemma gs_fold_after_copy (obj : Object) (ps : list Z) (c : cairo_context) :
  gs (fold_left (fun c p => after_copy trans obj p c) ps c) = gs c.
Proof.
  revert c. induction ps as [|p ps IH]; intros c; [reflexivity|].
  cbn [fold_left]. now rewrite IH.
Qed.

(** The inner loop, in full. *)
Lemma render_copies_run (obj : Object) (ps : list Z) :
  returns_normally obj -> balanced obj ->
  forall w : world D,
    for_each ps (fun p =>
      on_context cairo_save ;;;
      on_context (cairo_translate (inject_Z (p * world_width trans)) 0) ;;;
      call_render_cairo obj ;;;
      context_restore)%py w
    = ({| context :=
            fold_left (fun c p => after_copy trans obj p c) ps (context w);
          trace := trace w ++
            map (fun p => EvRenderCairo (obj_id obj)
                            (matrix_translate (ctm (gs (context w)))
                               (inject_Z (p * world_width trans)) 0)) ps;
          provider := provider w |}, Ok tt).
Proof.
  intros Hret Hbal. induction ps as [|p ps IH]; intros w.
  - destruct w. cbn. now rewrite app_nil_r.
  - cbn [for_each]. unfold bind at 1.
    rewrite (render_shifted_copy_run obj p w Hret Hbal), IH.
    cbn [context trace provider fold_left map after_copy gs].
    now rewrite <- app_assoc.
Qed.

(** Both loops, in full. *)
Lemma render_all_copies_run (objects : list Object) (ps : list Z) :
  Forall returns_normally objects -> Forall balanced objects ->
  forall w : world D,
    for_each objects (fun obj =>
      for_each ps (fun p =>
        on_context cairo_save ;;;
        on_context (cairo_translate (inject_Z (p * world_width trans)) 0) ;;;
        call_render_cairo obj ;;;
        context_restore))%py w
    = ({| context :=
            fold_left
              (fun c obj =>
                 fold_left (fun c p => after_copy trans obj p c) ps c)
              objects (context w);
          trace := trace w ++
            flat_map (fun obj =>
              map (fun p => EvRenderCairo (obj_id obj)
                              (matrix_translate (ctm (gs (context w)))
                                 (inject_Z (p * world_width trans)) 0)) ps)
              objects;
          provider := provider w |}, Ok tt).
Proof.
  intros Hret Hbal. induction objects as [|obj rest IH]; intros w.
  - destruct w. cbn. now rewrite app_nil_r.
  - inversion Hret as [|? ? Hret1 Hret2]; subst.
    inversion Hbal as [|? ? Hbal1 Hbal2]; subst.
    cbn [for_each]. unfold bind at 1.
    rewrite (render_copies_run obj ps Hret1 Hbal1 w), (IH Hret2 Hbal2).
    cbn [context trace provider fold_left flat_map].
    now rewrite gs_fold_after_copy, <- app_assoc.
Qed.

End RenderObjectsRun.

(** C1. With a positive world width, a non-negative image width and objects
    whose [render_cairo] returns and leaves the stack of saved states
    balanced, [render_objects] returns, [x_count] is the ceiling of
    image_width / (2 * world_width), the offsets it loops over are exactly the
    2 * x_count + 1 integers of [-x_count, x_count], and the calls it makes
    are, object after object, one [render_cairo] per offset p, each made with
    the drawing origin translated by p * world_width. The context it leaves
    is the one obtained by running, object after object and offset after
    offset, the object's [render_cairo] on the saved context translated by
    p * world_width and restoring the graphics state afterwards. *)
Theorem render_objects_world_copies {D : Type} (trans : Transformer)
    (objects : list Object) (tighten : bool) (w : world D) :
  0 < world_width trans ->
  0 <= image_width trans ->
  Forall returns_normally objects ->
  Forall balanced objects ->
  let x_count := math_ceil_div (image_width trans) (2 * world_width trans) in
  let offsets := py_range (- x_count) (x_count + 1) in
  let calls (obj : Object) :=
    map (fun p => EvRenderCairo (obj_id obj)
                    (matrix_translate (ctm (gs (context w)))
                                      (inject_Z (p * world_width trans)) 0))
        offsets in
  (x_count - 1) * (2 * world_width trans) < image_width trans
    <= x_count * (2 * world_width trans) /\
  (forall p, In p offsets <-> - x_count <= p <= x_count) /\
  (forall obj, Z.of_nat (length (calls obj)) = 2 * x_count + 1) /\
  exists w',
    render_objects trans objects tighten w = (w', Ok tt) /\
    trace w' = trace w ++ flat_map calls objects /\
    provider w' = provider w /\
    context w' =
      fold_left
        (fun c obj =>
           fold_left (fun c p => after_copy trans obj p c) offsets c)
        objects (context w).
Proof.
  intros Hww Hiw Hret Hbal x_count offsets calls.
  assert (Hb : (x_count - 1) * (2 * world_width trans) < image_width trans
               <= x_count * (2 * world_width trans))
    by (apply math_ceil_div_bounds; lia).
  assert (Hx : 0 <= x_count) by nia.
  split; [exact Hb|]. split; [|split].
  - intros p. unfold offsets. rewrite in_py_range. lia.
  - intros obj. unfold calls, offsets.
    rewrite length_map, length_py_range. lia.
  - eexists. split.
    + unfold render_objects.
      destruct (Z.eqb_spec (2 * world_width trans) 0) as [E|_]; [lia|].
      apply (render_all_copies_run trans objects offsets Hret Hbal w).
    + cbn [trace provider context]. auto.
Qed.

(** ** render_tiles: the double loop, cell by cell *)

Lemma for_each_Ok {S A} (l : list A) (body : A -> M S unit) :
  (forall x s, In x l -> snd (body x s) = Ok tt) ->
  forall s, snd (for_each l body s) = Ok tt.
Proof.
  induction l as [|a l IH]; intros H s; simpl.
  - reflexivity.
  - unfold bind. pose proof (H a s (or_introl eq_refl)) as Ha.
    destruct (body a s) as [s1 [[]|e]]; [|discriminate].
    apply IH. intros x t Hx. apply H. now right.
Qed.

Section RenderTiles.

Context {D : Type}.
Variable PIL_Image_open : bytes -> result PIL_Image.
Variable PIL_Image_save_PNG : PIL_Image -> result bytes.
Variable create_from_png : bytes -> result ImageSurface.
Variable trans : Transformer.
Variable download : download_fn D.

Local Abbreviation create_image' :=
  (create_image PIL_Image_open PIL_Image_save_PNG create_from_png).
Local Abbreviation fetch_tile' :=
  (fetch_tile PIL_Image_open PIL_Image_save_PNG create_from_png trans download).
Local Abbreviation render_tile_cell' :=
  (render_tile_cell PIL_Image_open PIL_Image_save_PNG create_from_png
                    trans download).
Local Abbreviation render_tile_row' :=
  (render_tile_row PIL_Image_open PIL_Image_save_PNG create_from_png
                   trans download).
Local Abbreviation render_tiles' :=
  (render_tiles PIL_Image_open PIL_Image_save_PNG create_from_png
                trans download).
Local Abbreviation render_cells' :=
  (render_cells PIL_Image_open PIL_Image_save_PNG create_from_png
                trans download).

Lemma in_tile_cells (yy xx : Z) :
  In (yy, xx) (tile_cells trans) <->
  0 <= yy < tiles_y trans /\ 0 <= xx < tiles_x trans /\
  0 <= first_tile_y trans + yy < number_of_tiles trans.
Proof.
  unfold tile_cells. rewrite in_flat_map. split.
  - intros (r & Hr & Hin). apply in_py_range in Hr.
    destruct (Z.ltb_spec (first_tile_y trans + r) 0); simpl in Hin;
      [contradiction|].
    destruct (Z.geb_spec (first_tile_y trans + r) (number_of_tiles trans));
      simpl in Hin; [contradiction|].
    apply in_map_iff in Hin. destruct Hin as (c & [= <- <-] & Hc).
    apply in_py_range in Hc. lia.
  - intros (Hy & Hx & Hr). exists yy. split; [apply in_py_range; lia|].
    destruct (Z.ltb_spec (first_tile_y trans + yy) 0); [lia|].
    destruct (Z.geb_spec (first_tile_y trans + yy) (number_of_tiles trans));
      [lia|].
    simpl. apply in_map_iff. exists xx. split; [reflexivity|].
    apply in_py_range. lia.
Qed.

(** The double loop is the cell body run over [tile_cells]. *)
Lemma render_tiles_cells (objects : list Object) (tighten : bool)
    (w : world D) :
  render_tiles' objects tighten w = render_cells' (tile_cells trans) w.
Proof.
  unfold render_tiles, render_cells, tile_cells.
  rewrite for_each_flat_map. apply for_each_ext. intros yy s _.
  unfold render_tile_row.
  destruct ((first_tile_y trans + yy <? 0)
            || (first_tile_y trans + yy >=? number_of_tiles trans)).
  - reflexivity.
  - now rewrite for_each_map.
Qed.

Lemma render_cells_split (before after : list (Z * Z)) (c : Z * Z)
    (w w1 : world D) :
  render_cells' before w = (w1, Ok tt) ->
  render_cells' (before ++ c :: after) w =
  match render_tile_cell' (fst c) (first_tile_y trans + fst c) (snd c) w1 with
  | (w2, Ok _) => render_cells' after w2
  | (w2, Raise e) => (w2, Raise e)
  end.
Proof.
  intros Hb. unfold render_cells in *.
  rewrite for_each_app, Hb. reflexivity.
Qed.

(** What the cell body does, by what the download and the decoding give. *)
Lemma render_tile_cell_cases (yy y xx : Z) (w : world D) :
  number_of_tiles trans <> 0 ->
  let x := (first_tile_x trans + xx) mod number_of_tiles trans in
  render_tile_cell' yy y xx w =
  match download (provider w) (zoom trans) x y with
  | (d, Raise e) =>
      (downloaded w (zoom trans) x y d,
       if isinstance_RuntimeError e then Ok tt else Raise e)
  | (d, Ok None) => (downloaded w (zoom trans) x y d, Ok tt)
  | (d, Ok (Some data)) =>
      match create_image' data with
      | Raise e =>
          (downloaded w (zoom trans) x y d,
           if isinstance_RuntimeError e then Ok tt else Raise e)
      | Ok img =>
          ({| context := paint_tile trans yy xx img (context w);
              trace := trace w ++ [EvDownload (zoom trans) x y];
              provider := d |}, Ok tt)
      end
  end.
Proof.
  intros Hn x.
  unfold render_tile_cell, py_mod, fetch_tile.
  destruct (Z.eqb_spec (number_of_tiles trans) 0) as [E|_]; [contradiction|].
  unfold bind at 1. unfold ret at 1. fold x.
  unfold try_except_RuntimeError_pass, bind, call_download, lift, ret.
  destruct (download (provider w) (zoom trans) x y) as [d [[data|]|e]].
  - destruct (create_image _ _ _ data) as [img|e]; simpl.
    + reflexivity.
    + unfold downloaded. now destruct (isinstance_RuntimeError e).
  - reflexivity.
  - unfold downloaded. now destruct (isinstance_RuntimeError e).
Qed.

(** Whatever a cell does, it records one download request and leaves the
    graphics state and the stack of saved states alone. *)
Lemma render_tile_cell_frame (yy y xx : Z) (w : world D) :
  number_of_tiles trans <> 0 ->
  let w' := fst (render_tile_cell' yy y xx w) in
  trace w' = trace w ++
    [EvDownload (zoom trans)
       ((first_tile_x trans + xx) mod number_of_tiles trans) y] /\
  gs (context w') = gs (context w) /\
  saved (context w') = saved (context w).
Proof.
  intros Hn. simpl. rewrite render_tile_cell_cases by assumption.
  destruct (download _ _ _ _) as [d [[data|]|e]]; simpl; auto.
  destruct (create_image _ _ _ data) as [img|e]; simpl; auto.
Qed.

(** A run over in-range cells that returns has requested each of them once,
    in order. *)
Lemma render_cells_trace (cells : list (Z * Z)) :
  number_of_tiles trans <> 0 ->
  forall w w' : world D,
    render_cells' cells w = (w', Ok tt) ->
    trace w' = trace w ++ map (tile_request trans) cells.
Proof.
  intros Hn. induction cells as [|[yy xx] rest IH]; intros w w'.
  - intros [= <-]. now rewrite app_nil_r.
  - unfold render_cells. cbn [for_each fst snd]. unfold bind.
    pose proof (render_tile_cell_frame yy (first_tile_y trans + yy) xx w Hn)
      as (Ht & _).
    destruct (render_tile_cell' yy (first_tile_y trans + yy) xx w)
      as [w1 [[]|e]]; [|discriminate].
    cbn [fst] in Ht. intros Hrest. apply IH in Hrest.
    rewrite Hrest, Ht, <- app_assoc. reflexivity.
Qed.

End RenderTiles.

(** C2. Every download request [render_tiles] makes is for a cell (xx, yy) of
    the tile window, with x = (first_tile_x + xx) mod number_of_tiles inside
    [0, number_of_tiles) and y = first_tile_y + yy inside
    [0, number_of_tiles), whatever the sign or size of [first_tile_x] and
    however the render ends; and a row whose y lies outside
    [0, number_of_tiles) is passed over with no call, no change and no
    error. A render that returns has requested every cell of an in-range row
    once, in row-major order. *)
Theorem render_tiles_requests_in_range {D : Type}
    (PIL_Image_open : bytes -> result PIL_Image)
    (PIL_Image_save_PNG : PIL_Image -> result bytes)
    (create_from_png : bytes -> result ImageSurface)
    (trans : Transformer) (download : download_fn D)
    (objects : list Object) (tighten : bool) (w : world D) :
  (exists requests,
     trace (fst (render_tiles PIL_Image_open PIL_Image_save_PNG create_from_png
                   trans download objects tighten w))
     = trace w ++ requests /\
     Forall (wrapped_tile_request trans) requests) /\
  (forall yy,
     first_tile_y trans + yy < 0 \/
     number_of_tiles trans <= first_tile_y trans + yy ->
     render_tile_row PIL_Image_open PIL_Image_save_PNG create_from_png
       trans download yy w = (w, Ok tt)) /\
  (forall w',
     render_tiles PIL_Image_open PIL_Image_save_PNG create_from_png
       trans download objects tighten w = (w', Ok tt) ->
     trace w' = trace w ++ map (tile_request trans) (tile_cells trans)).
Proof.
  split; [|split].
  - rewrite render_tiles_cells. unfold render_cells.
    apply (for_each_preserves
             (fun s => exists requests, trace s = trace w ++ requests /\
                         Forall (wrapped_tile_request trans) requests)).
    + intros [yy xx] s Hc (requests & Hs & Hreq).
      apply in_tile_cells in Hc. destruct Hc as (Hyy & Hxx & Hy).
      assert (Hn : number_of_tiles trans <> 0) by lia.
      destruct (render_tile_cell_frame PIL_Image_open PIL_Image_save_PNG
                  create_from_png trans download yy
                  (first_tile_y trans + yy) xx s Hn) as (Ht & _).
      cbn [fst snd]. rewrite Ht, Hs, <- app_assoc.
      eexists. split; [reflexivity|].
      apply Forall_app. split; [exact Hreq|].
      constructor; [|constructor].
      exists xx, yy. repeat split; try lia.
      * apply Z.mod_pos_bound. lia.
      * apply Z.mod_pos_bound. lia.
    + exists []. rewrite app_nil_r. auto.
  - intros yy Hy. unfold render_tile_row.
    destruct (Z.ltb_spec (first_tile_y trans + yy) 0); [reflexivity|].
    destruct (Z.geb_spec (first_tile_y trans + yy) (number_of_tiles trans));
      [reflexivity|lia].
  - intros w'. rewrite render_tiles_cells.
    destruct (tile_cells trans) as [|[yy xx] rest] eqn:Hcells.
    + intros [= <-]. now rewrite app_nil_r.
    + assert (Hin : In (yy, xx) (tile_cells trans))
        by (rewrite Hcells; now left).
      apply in_tile_cells in Hin. destruct Hin as (_ & _ & Hy).
      apply render_cells_trace. lia.
Qed.

(** C10, as stated, fails: an object whose [render_cairo] returns normally
    after moving the origin by one pixel and saving without restoring makes
    the [restore] of [render_objects] pop the object's saved state; over the
    three world copies of the sample viewport, [render_objects] returns with
    the origin three pixels to the right and three states left on the stack. *)
Lemma unbalanced_object_shifts_origin :
  render_cairo leaky fresh_context
    = (cairo_save (cairo_translate 1 0 fresh_context), Ok tt) /\
  snd (render_objects sample_trans [leaky] false fresh_world) = Ok tt /\
  ctm (gs (context fresh_world)) = identity_matrix /\
  ctm (gs (context (fst (render_objects sample_trans [leaky] false
                           fresh_world))))
    = matrix_translate identity_matrix 3 0 /\
  length (saved (context (fst (render_objects sample_trans [leaky] false
                                 fresh_world)))) = 3%nat.
Proof. repeat split; vm_compute; reflexivity. Qed.

(** C10, amended. When every object leaves the stack of saved states
    balanced, a [render_objects] that returns leaves the graphics state of
    the context, its transformation matrix in particular, and the stack of
    saved states as they were; [render_tiles] leaves them as they were for
    every download callback and every codec, however it ends. *)
Theorem render_keeps_transformation {D : Type}
    (PIL_Image_open : bytes -> result PIL_Image)
    (PIL_Image_save_PNG : PIL_Image -> result bytes)
    (create_from_png : bytes -> result ImageSurface)
    (trans : Transformer) (download : download_fn D)
    (objects : list Object) (tighten : bool) (w : world D) :
  Forall balanced objects ->
  (forall w', render_objects trans objects tighten w = (w', Ok tt) ->
     ctm (gs (context w')) = ctm (gs (context w)) /\
     gs (context w') = gs (context w) /\
     saved (context w') = saved (context w)) /\
  (let w' := fst (render_tiles PIL_Image_open PIL_Image_save_PNG create_from_png
                    trans download objects tighten w) in
   ctm (gs (context w')) = ctm (gs (context w)) /\
   gs (context w') = gs (context w) /\
   saved (context w') = saved (context w)).
Proof.
  intros Hbal. split.
  - intros w'. unfold render_objects.
    destruct (2 * world_width trans =? 0); [discriminate|].
    intros Hrun.
    assert (H : gs (context w') = gs (context w) /\
                saved (context w') = saved (context w)).
    { apply (for_each_preserves_Ok
               (fun s => gs (context s) = gs (context w) /\
                         saved (context s) = saved (context w))
               _ _) with (s := w) (s' := w') in Hrun; [exact Hrun| |auto].
      intros obj s s' Hobj Hs Hinner.
      apply (for_each_preserves_Ok
               (fun t => gs (context t) = gs (context w) /\
                         saved (context t) = saved (context w))
               _ _) with (s := s) (s' := s') in Hinner; [exact Hinner| |exact Hs].
      intros p t t' _ [Hg Hsv] Hstep.
      apply shifted_copy_restores in Hstep.
      - destruct Hstep as [-> ->]. auto.
      - exact (proj1 (List.Forall_forall _ _) Hbal obj Hobj). }
    destruct H as [Hg Hsv]. now rewrite Hg.
  - simpl. rewrite render_tiles_cells. unfold render_cells.
    assert (H : gs (context (fst (for_each (tile_cells trans)
                   (fun c => render_tile_cell PIL_Image_open PIL_Image_save_PNG
                               create_from_png trans download (fst c)
                               (first_tile_y trans + fst c) (snd c)) w)))
                = gs (context w) /\
                saved (context (fst (for_each (tile_cells trans)
                   (fun c => render_tile_cell PIL_Image_open PIL_Image_save_PNG
                               create_from_png trans download (fst c)
                               (first_tile_y trans + fst c) (snd c)) w)))
                = saved (context w)).
    { apply (for_each_preserves
               (fun s => gs (context s) = gs (context w) /\
                         saved (context s) = saved (context w))); [|auto].
      intros [yy xx] s Hc [Hg Hsv].
      apply in_tile_cells in Hc. destruct Hc as (_ & _ & Hy).
      assert (Hn : number_of_tiles trans <> 0) by lia.
      destruct (render_tile_cell_frame PIL_Image_open PIL_Image_save_PNG
                  create_from_png trans download yy
                  (first_tile_y trans + yy) xx s Hn) as (_ & Hg' & Hsv').
      cbn [fst snd]. now rewrite Hg', Hsv'. }
    destruct H as [Hg Hsv]. now rewrite Hg.
Qed.

(** C10 on the sample viewport, with the object that strokes a mark. *)
Lemma render_keeps_transformation_sample :
  Forall balanced [mark] /\
  ctm (gs (context (fst (render_objects sample_trans [mark] false fresh_world))))
  = ctm (gs (context fresh_world)).
Proof.
  assert (Hbal : Forall balanced [mark]).
  { constructor; [|constructor]. intros c c' [= <-]. reflexivity. }
  split; [exact Hbal|].
  assert (Hrun : render_objects sample_trans [mark] false fresh_world
                 = (fst (render_objects sample_trans [mark] false fresh_world),
                    Ok tt))
    by (vm_compute; reflexivity).
  exact (proj1 (proj1 (render_keeps_transformation
                  signature_open signature_save_PNG signature_create_from_png
                  sample_trans download_absent [mark] false fresh_world Hbal)
                _ Hrun)).
Defined.

(** C1 on the sample viewport: three world copies of one object, three
    calls and three strokes on the canvas. *)
Lemma render_objects_world_copies_sample :
  0 < world_width sample_trans /\
  0 <= image_width sample_trans /\
  Forall returns_normally [mark] /\
  Forall balanced [mark] /\
  exists w',
    render_objects sample_trans [mark] false fresh_world = (w', Ok tt) /\
    length (trace w') = 3%nat /\
    length (canvas (context w')) = 3%nat.
Proof.
  assert (Hww : 0 < world_width sample_trans) by reflexivity.
  assert (Hiw : 0 <= image_width sample_trans) by (simpl; lia).
  assert (Hret : Forall returns_normally [mark]).
  { constructor; [|constructor]. intros c. reflexivity. }
  assert (Hbal : Forall balanced [mark]).
  { constructor; [|constructor]. intros c c' [= <-]. reflexivity. }
  repeat (split; [assumption|]).
  destruct (render_objects_world_copies sample_trans [mark] false fresh_world
              Hww Hiw Hret Hbal)
    as (_ & _ & _ & w' & Hrun & Htrace & _ & Hcontext).
  exists w'. split; [exact Hrun|]. rewrite Htrace, Hcontext.
  split; reflexivity.
Defined.

(** ** render_tiles: failures and absent tiles *)

(** C3, as stated, fails: an OSError raised by the download callback on the
    first cell leaves [render_tiles] as an OSError, the other cells
    unvisited. *)
Lemma connection_error_escapes_render_tiles :
  download_connection_error tt 1 1 0 = (tt, Raise OSError) /\
  render_tiles signature_open signature_save_PNG signature_create_from_png
    sample_trans download_connection_error [] false fresh_world
  = (downloaded fresh_world 1 1 0 tt, Raise OSError).
Proof. split; vm_compute; reflexivity. Qed.

(** C3, amended. When the download callback raises a RuntimeError (or an
    exception of a subclass) on a cell that [render_tiles] reaches, the cell
    body returns normally, the drawing context is as it was before the cell,
    and [render_tiles] goes on with the cells after it. *)
Theorem runtime_fetch_error_absorbed {D : Type}
    (PIL_Image_open : bytes -> result PIL_Image)
    (PIL_Image_save_PNG : PIL_Image -> result bytes)
    (create_from_png : bytes -> result ImageSurface)
    (trans : Transformer) (download : download_fn D)
    (objects : list Object) (tighten : bool)
    (before after : list (Z * Z)) (yy xx : Z) (w w1 : world D)
    (d : D) (e : exn_class) :
  tile_cells trans = before ++ (yy, xx) :: after ->
  render_cells PIL_Image_open PIL_Image_save_PNG create_from_png
    trans download before w = (w1, Ok tt) ->
  download (provider w1) (zoom trans)
    ((first_tile_x trans + xx) mod number_of_tiles trans)
    (first_tile_y trans + yy) = (d, Raise e) ->
  isinstance_RuntimeError e = true ->
  let w2 := downloaded w1 (zoom trans)
              ((first_tile_x trans + xx) mod number_of_tiles trans)
              (first_tile_y trans + yy) d in
  render_tile_cell PIL_Image_open PIL_Image_save_PNG create_from_png
    trans download yy (first_tile_y trans + yy) xx w1 = (w2, Ok tt) /\
  context w2 = context w1 /\
  render_tiles PIL_Image_open PIL_Image_save_PNG create_from_png
    trans download objects tighten w
  = render_cells PIL_Image_open PIL_Image_save_PNG create_from_png
      trans download after w2.
Proof.
  intros Hcells Hbefore Hdl He w2.
  assert (Hin : In (yy, xx) (tile_cells trans))
    by (rewrite Hcells; apply in_elt).
  apply in_tile_cells in Hin. destruct Hin as (_ & _ & Hy).
  assert (Hn : number_of_tiles trans <> 0) by lia.
  assert (Hcell : render_tile_cell PIL_Image_open PIL_Image_save_PNG
                    create_from_png trans download yy
                    (first_tile_y trans + yy) xx w1 = (w2, Ok tt)).
  { rewrite render_tile_cell_cases by assumption. cbv zeta.
    rewrite Hdl, He. reflexivity. }
  split; [exact Hcell|]. split; [reflexivity|].
  rewrite render_tiles_cells, Hcells.
  rewrite (render_cells_split _ _ _ _ _ _ _ _ _ _ Hbefore).
  cbn [fst snd]. now rewrite Hcell.
Qed.

(** C3 on the sample viewport, the first tile answered with a RuntimeError. *)
Lemma runtime_fetch_error_absorbed_sample :
  tile_cells sample_trans = [] ++ (1, 0) :: [(1, 1); (2, 0); (2, 1)] /\
  download_status_error tt 1 1 0 = (tt, Raise RuntimeError) /\
  render_tiles signature_open signature_save_PNG signature_create_from_png
    sample_trans download_status_error [] false fresh_world
  = render_cells signature_open signature_save_PNG signature_create_from_png
      sample_trans download_status_error [(1, 1); (2, 0); (2, 1)]
      (downloaded fresh_world 1 1 0 tt).
Proof.
  assert (Hcells : tile_cells sample_trans
                   = [] ++ (1, 0) :: [(1, 1); (2, 0); (2, 1)])
    by (vm_compute; reflexivity).
  assert (Hdl : download_status_error tt 1 1 0 = (tt, Raise RuntimeError))
    by reflexivity.
  split; [exact Hcells|]. split; [exact Hdl|].
  exact (proj2 (proj2 (runtime_fetch_error_absorbed
           signature_open signature_save_PNG signature_create_from_png
           sample_trans download_status_error [] false
           [] [(1, 1); (2, 0); (2, 1)] 1 0 fresh_world fresh_world
           tt RuntimeError Hcells eq_refl Hdl eq_refl))).
Defined.

(** C4, as stated, fails: bytes that PIL does not identify as an image make
    [create_image] raise UnidentifiedImageError, which leaves [render_tiles]
    on the first cell, the other cells unvisited. *)
Lemma undecodable_tile_escapes_render_tiles :
  download_junk tt 1 1 0 = (tt, Ok (Some junk_tile)) /\
  create_image signature_open signature_save_PNG signature_create_from_png
    junk_tile = Raise UnidentifiedImageError /\
  render_tiles signature_open signature_save_PNG signature_create_from_png
    sample_trans download_junk [] false fresh_world
  = (downloaded fresh_world 1 1 0 tt, Raise UnidentifiedImageError).
Proof. repeat split; vm_compute; reflexivity. Qed.

(** C4, amended. When the bytes downloaded for a cell that [render_tiles]
    reaches make [create_image] raise a RuntimeError (or an exception of a
    subclass), the cell body returns normally, the drawing context is as it
    was before the cell, and [render_tiles] goes on with the cells after it:
    the same outcome as for a RuntimeError of the download callback. *)
Theorem runtime_decode_error_absorbed {D : Type}
    (PIL_Image_open : bytes -> result PIL_Image)
    (PIL_Image_save_PNG : PIL_Image -> result bytes)
    (create_from_png : bytes -> result ImageSurface)
    (trans : Transformer) (download : download_fn D)
    (objects : list Object) (tighten : bool)
    (before after : list (Z * Z)) (yy xx : Z) (w w1 : world D)
    (d : D) (data : bytes) (e : exn_class) :
  tile_cells trans = before ++ (yy, xx) :: after ->
  render_cells PIL_Image_open PIL_Image_save_PNG create_from_png
    trans download before w = (w1, Ok tt) ->
  download (provider w1) (zoom trans)
    ((first_tile_x trans + xx) mod number_of_tiles trans)
    (first_tile_y trans + yy) = (d, Ok (Some data)) ->
  create_image PIL_Image_open PIL_Image_save_PNG create_from_png data
    = Raise e ->
  isinstance_RuntimeError e = true ->
  let w2 := downloaded w1 (zoom trans)
              ((first_tile_x trans + xx) mod number_of_tiles trans)
              (first_tile_y trans + yy) d in
  render_tile_cell PIL_Image_open PIL_Image_save_PNG create_from_png
    trans download yy (first_tile_y trans + yy) xx w1 = (w2, Ok tt) /\
  context w2 = context w1 /\
  render_tiles PIL_Image_open PIL_Image_save_PNG create_from_png
    trans download objects tighten w
  = render_cells PIL_Image_open PIL_Image_save_PNG create_from_png
      trans download after w2.
Proof.
  intros Hcells Hbefore Hdl Himg He w2.
  assert (Hin : In (yy, xx) (tile_cells trans))
    by (rewrite Hcells; apply in_elt).
  apply in_tile_cells in Hin. destruct Hin as (_ & _ & Hy).
  assert (Hn : number_of_tiles trans <> 0) by lia.
  assert (Hcell : render_tile_cell PIL_Image_open PIL_Image_save_PNG
                    create_from_png trans download yy
                    (first_tile_y trans + yy) xx w1 = (w2, Ok tt)).
  { rewrite render_tile_cell_cases by assumption. cbv zeta.
    rewrite Hdl, Himg, He. reflexivity. }
  split; [exact Hcell|]. split; [reflexivity|].
  rewrite render_tiles_cells, Hcells.
  rewrite (render_cells_split _ _ _ _ _ _ _ _ _ _ Hbefore).
  cbn [fst snd]. now rewrite Hcell.
Qed.

(** C4 on the sample viewport, the first tile undecodable and the decoder
    reporting it with a RuntimeError. *)
Lemma runtime_decode_error_absorbed_sample :
  tile_cells sample_trans = [] ++ (1, 0) :: [(1, 1); (2, 0); (2, 1)] /\
  download_junk tt 1 1 0 = (tt, Ok (Some junk_tile)) /\
  create_image strict_open signature_save_PNG signature_create_from_png
    junk_tile = Raise RuntimeError /\
  render_tiles strict_open signature_save_PNG signature_create_from_png
    sample_trans download_junk [] false fresh_world
  = render_cells strict_open signature_save_PNG signature_create_from_png
      sample_trans download_junk [(1, 1); (2, 0); (2, 1)]
      (downloaded fresh_world 1 1 0 tt).
Proof.
  assert (Hcells : tile_cells sample_trans
                   = [] ++ (1, 0) :: [(1, 1); (2, 0); (2, 1)])
    by (vm_compute; reflexivity).
  assert (Hdl : download_junk tt 1 1 0 = (tt, Ok (Some junk_tile)))
    by reflexivity.
  assert (Himg : create_image strict_open signature_save_PNG
                   signature_create_from_png junk_tile = Raise RuntimeError)
    by reflexivity.
  split; [exact Hcells|]. split; [exact Hdl|]. split; [exact Himg|].
  exact (proj2 (proj2 (runtime_decode_error_absorbed
           strict_open signature_save_PNG signature_create_from_png
           sample_trans download_junk [] false
           [] [(1, 1); (2, 0); (2, 1)] 1 0 fresh_world fresh_world
           tt junk_tile RuntimeError Hcells eq_refl Hdl Himg eq_refl))).
Defined.

(** C7. When the download callback returns None for a cell that
    [render_tiles] reaches, the cell body returns normally, the drawing
    context is as it was before the cell (nothing is drawn in its place), and
    [render_tiles] goes on with the cells after it; and [fetch_tile] returns
    None exactly when the callback returned None. *)
Theorem absent_tile_skipped {D : Type}
    (PIL_Image_open : bytes -> result PIL_Image)
    (PIL_Image_save_PNG : PIL_Image -> result bytes)
    (create_from_png : bytes -> result ImageSurface)
    (trans : Transformer) (download : download_fn D)
    (objects : list Object) (tighten : bool)
    (before after : list (Z * Z)) (yy xx : Z) (w w1 : world D) (d : D) :
  tile_cells trans = before ++ (yy, xx) :: after ->
  render_cells PIL_Image_open PIL_Image_save_PNG create_from_png
    trans download before w = (w1, Ok tt) ->
  download (provider w1) (zoom trans)
    ((first_tile_x trans + xx) mod number_of_tiles trans)
    (first_tile_y trans + yy) = (d, Ok None) ->
  let w2 := downloaded w1 (zoom trans)
              ((first_tile_x trans + xx) mod number_of_tiles trans)
              (first_tile_y trans + yy) d in
  render_tile_cell PIL_Image_open PIL_Image_save_PNG create_from_png
    trans download yy (first_tile_y trans + yy) xx w1 = (w2, Ok tt) /\
  context w2 = context w1 /\
  render_tiles PIL_Image_open PIL_Image_save_PNG create_from_png
    trans download objects tighten w
  = render_cells PIL_Image_open PIL_Image_save_PNG create_from_png
      trans download after w2 /\
  (forall x y (v v' : world D),
     fetch_tile PIL_Image_open PIL_Image_save_PNG create_from_png
       trans download x y v = (v', Ok None)
     <-> exists d', download (provider v) (zoom trans) x y = (d', Ok None) /\
                    v' = downloaded v (zoom trans) x y d').
Proof.
  intros Hcells Hbefore Hdl w2.
  assert (Hin : In (yy, xx) (tile_cells trans))
    by (rewrite Hcells; apply in_elt).
  apply in_tile_cells in Hin. destruct Hin as (_ & _ & Hy).
  assert (Hn : number_of_tiles trans <> 0) by lia.
  assert (Hcell : render_tile_cell PIL_Image_open PIL_Image_save_PNG
                    create_from_png trans download yy
                    (first_tile_y trans + yy) xx w1 = (w2, Ok tt)).
  { rewrite render_tile_cell_cases by assumption. cbv zeta.
    rewrite Hdl. reflexivity. }
  split; [exact Hcell|]. split; [reflexivity|]. split.
  - rewrite render_tiles_cells, Hcells.
    rewrite (render_cells_split _ _ _ _ _ _ _ _ _ _ Hbefore).
    cbn [fst snd]. now rewrite Hcell.
  - intros x y v v'.
    unfold fetch_tile, bind, call_download, lift, ret, downloaded.
    destruct (download (provider v) (zoom trans) x y) as [d' [[bs|]|e']].
    + destruct (create_image _ _ _ bs) as [img|e']; split.
      * intros [=].
      * intros (d0 & [=] & _).
      * intros [=].
      * intros (d0 & [=] & _).
    + split.
      * intros [= <-]. now exists d'.
      * intros (d0 & [= <-] & ->). reflexivity.
    + split.
      * intros [=].
      * intros (d0 & [=] & _).
Qed.

(** C7 on the sample viewport, the first tile absent. *)
Lemma absent_tile_skipped_sample :
  tile_cells sample_trans = [] ++ (1, 0) :: [(1, 1); (2, 0); (2, 1)] /\
  download_absent tt 1 1 0 = (tt, Ok None) /\
  render_tiles signature_open signature_save_PNG signature_create_from_png
    sample_trans download_absent [] false fresh_world
  = render_cells signature_open signature_save_PNG signature_create_from_png
      sample_trans download_absent [(1, 1); (2, 0); (2, 1)]
      (downloaded fresh_world 1 1 0 tt).
Proof.
  assert (Hcells : tile_cells sample_trans
                   = [] ++ (1, 0) :: [(1, 1); (2, 0); (2, 1)])
    by (vm_compute; reflexivity).
  assert (Hdl : download_absent tt 1 1 0 = (tt, Ok None)) by reflexivity.
  split; [exact Hcells|]. split; [exact Hdl|].
  exact (proj1 (proj2 (proj2 (absent_tile_skipped
           signature_open signature_save_PNG signature_create_from_png
           sample_trans download_absent [] false
           [] [(1, 1); (2, 0); (2, 1)] 1 0 fresh_world fresh_world
           tt Hcells eq_refl Hdl)))).
Defined.

(** ** create_image *)

Lemma format_is_spec (image : PIL_Image) (name : string) :
  format_is image name = true <-> format image = Some name.
Proof.
  unfold format_is. destruct (format image) as [f|].
  - rewrite String.eqb_eq. split; congruence.
  - split; discriminate.
Qed.

(** C8. For bytes PIL can open: when PIL identifies them as PNG,
    [create_image] is the PNG decoder applied to the bytes themselves;
    otherwise it is the PNG decoder applied to the PNG export of the image
    (and raises what the export raises, when the export fails). With a PNG
    export that produces a PNG stream holding the same pixels, the stream
    handed to the PNG decoder is in both cases a PNG stream with the pixels
    of the input, and every surface [create_image] returns was decoded from
    such a stream. *)
Theorem create_image_through_png
    (PIL_Image_open : bytes -> result PIL_Image)
    (PIL_Image_save_PNG : PIL_Image -> result bytes)
    (create_from_png : bytes -> result ImageSurface)
    (data : bytes) (image : PIL_Image) :
  (forall im png, PIL_Image_save_PNG im = Ok png ->
                  is_PNG PIL_Image_open png (tobytes im)) ->
  PIL_Image_open data = Ok image ->
  (format image = Some "PNG"%string ->
     create_image PIL_Image_open PIL_Image_save_PNG create_from_png data
       = create_from_png data /\
     is_PNG PIL_Image_open data (tobytes image)) /\
  (format image <> Some "PNG"%string ->
     forall png, PIL_Image_save_PNG image = Ok png ->
       create_image PIL_Image_open PIL_Image_save_PNG create_from_png data
         = create_from_png png /\
       is_PNG PIL_Image_open png (tobytes image)) /\
  (format image <> Some "PNG"%string ->
     forall e, PIL_Image_save_PNG image = Raise e ->
       create_image PIL_Image_open PIL_Image_save_PNG create_from_png data
         = Raise e) /\
  (forall surface,
     create_image PIL_Image_open PIL_Image_save_PNG create_from_png data
       = Ok surface ->
     exists png, is_PNG PIL_Image_open png (tobytes image) /\
                 create_from_png png = Ok surface).
Proof.
  intros Hexport Hopen. unfold create_image. rewrite Hopen.
  destruct (format_is image "PNG") eqn:Hfmt.
  - apply format_is_spec in Hfmt.
    assert (Hpng : is_PNG PIL_Image_open data (tobytes image))
      by (exists image; auto).
    repeat split; try congruence; auto.
    intros surface Hs. now exists data.
  - assert (Hne : format image <> Some "PNG"%string).
    { intros E. apply format_is_spec in E. congruence. }
    split; [congruence|]. split; [|split].
    + intros _ png Hsave. rewrite Hsave. split; [reflexivity|].
      now apply Hexport.
    + intros _ e Hsave. now rewrite Hsave.
    + intros surface. destruct (PIL_Image_save_PNG image) as [png|e] eqn:Hsave;
        [|discriminate].
      intros Hs. exists png. split; [now apply Hexport|exact Hs].
Qed.

(** C8 on a JPEG stream of the one-byte-signature codec. *)
Lemma create_image_through_png_sample :
  (forall im png, signature_save_PNG im = Ok png ->
                  is_PNG signature_open png (tobytes im)) /\
  signature_open jpeg_tile
    = Ok {| format := Some "JPEG"%string; tobytes := [Byte.x01; Byte.x02] |} /\
  create_image signature_open signature_save_PNG signature_create_from_png
    jpeg_tile
  = signature_create_from_png png_tile.
Proof.
  assert (Hexport : forall im png, signature_save_PNG im = Ok png ->
                                   is_PNG signature_open png (tobytes im)).
  { intros im png [= <-]. eexists. simpl. eauto. }
  split; [exact Hexport|]. split; [reflexivity|].
  refine (proj1 (proj1 (proj2 (create_image_through_png
            signature_open signature_save_PNG signature_create_from_png
            jpeg_tile _ Hexport eq_refl)) _ png_tile eq_refl)).
  discriminate.
Defined.

(** ** cairo_is_supported, CairoRenderer.__init__ *)

(** C5, as stated, fails: with cairo loaded, [cairo_is_supported] answers
    true and the construction of a renderer for a 40000 x 40000 image still
    raises, at the allocation of the image surface. *)
Lemma construction_fails_with_cairo_supported :
  cairo_is_supported with_cairo = (with_cairo, Ok true) /\
  __init__ checked_ImageSurface huge_trans with_cairo
    = (with_cairo, Raise CairoError).
Proof. split; vm_compute; reflexivity. Qed.

(** Without cairo loaded the query answers false and the construction raises
    RuntimeError. *)
Example construction_without_cairo :
  cairo_is_supported without_cairo = (without_cairo, Ok false) /\
  __init__ checked_ImageSurface sample_trans without_cairo
    = (without_cairo, Raise RuntimeError).
Proof. split; vm_compute; reflexivity. Qed.

(** C5, amended. [cairo_is_supported] reads [sys.modules] and nothing else:
    it never raises, changes nothing, and answers whether cairo is loaded.
    Constructing a renderer changes nothing either; without cairo loaded it
    raises RuntimeError, before anything of cairo is used; when it succeeds
    [cairo_is_supported] answers true; and with cairo loaded and imported it
    succeeds exactly when the image surface for the transformer's image size
    can be allocated, and raises what the allocation raises otherwise. *)
Theorem construction_needs_cairo
    (new_ImageSurface_ARGB32 : Z -> Z -> result ImageSurface)
    (trans : Transformer) (st : interpreter) :
  cairo_is_supported st
    = (st, Ok (bool_decide ("cairo"%string ∈ sys_modules st))) /\
  fst (__init__ new_ImageSurface_ARGB32 trans st) = st /\
  ("cairo"%string ∉ sys_modules st ->
     __init__ new_ImageSurface_ARGB32 trans st = (st, Raise RuntimeError)) /\
  (forall renderer,
     snd (__init__ new_ImageSurface_ARGB32 trans st) = Ok renderer ->
     cairo_is_supported st = (st, Ok true)) /\
  ("cairo"%string ∈ sys_modules st -> cairo_imported st = true ->
     __init__ new_ImageSurface_ARGB32 trans st
     = (st,
        match new_ImageSurface_ARGB32 (image_width trans) (image_height trans)
        with
        | Ok surface =>
            Ok {| _trans := trans; _surface := surface;
                  _context := new_Context surface |}
        | Raise e => Raise e
        end)).
Proof.
  unfold __init__, cairo_is_supported, bind, raise, Renderer_init, image_size.
  split; [reflexivity|].
  destruct (bool_decide_reflect ("cairo"%string ∈ sys_modules st)) as [Hin|Hout];
    simpl.
  - destruct (cairo_imported st); simpl.
    + destruct (new_ImageSurface_ARGB32 _ _) as [surface|e]; simpl.
      * repeat split; auto. intros Hout. contradiction.
      * repeat split; auto; try discriminate. intros Hout. contradiction.
    + repeat split; auto; try discriminate. intros Hout. contradiction.
  - repeat split; auto; try discriminate. intros Hin. contradiction.
Qed.

(** ** render_attribution: the shrinking loop *)

Lemma Qlt_bool_iff (a b : Q) : Qlt_bool a b = true <-> (a < b)%Q.
Proof.
  unfold Qlt_bool. rewrite negb_true_iff. split.
  - intros H. apply Qnot_le_lt. intros Hle.
    apply Qle_bool_iff in Hle. congruence.
  - intros H. destruct (Qle_bool b a) eqn:E; [|reflexivity].
    apply Qle_bool_iff in E. exfalso. exact (Qlt_not_le _ _ H E).
Qed.

Lemma nth_font_size_closed (k : nat) :
  (nth_font_size k == 9.0 - inject_Z (Z.of_nat k) * 0.25)%Q.
Proof.
  induction k as [|k IH].
  - simpl. ring.
  - cbn [nth_font_size]. rewrite IH, Nat2Z.inj_succ.
    unfold Z.succ. rewrite inject_Z_plus. ring.
Qed.

Section ShrinkFont.

Variable font_extents : string -> Q -> matrix -> Q * Q * Q * Q * Q.
Variable text_extents : string -> Q -> matrix -> string -> TextExtents.
Variable text : string.
Variable width_px : Z.

Local Abbreviation exits := (exits text_extents text width_px).

(** The loop leaves at the first font size of the ladder that fits. *)
Lemma shrink_font_exits (k : nat) :
  forall (j fuel : nat) (c : cairo_context),
    exits c (nth_font_size (j + k)) = true ->
    (forall i, (i < k)%nat -> exits c (nth_font_size (j + i)) = false) ->
    (k < fuel)%nat ->
    let c' := cairo_set_font_size (nth_font_size (j + k)) c in
    shrink_font font_extents text_extents fuel text width_px
                (nth_font_size j) c
    = Some (c', f_descent_of (context_font_extents font_extents c'),
                f_height_of (context_font_extents font_extents c')).
Proof.
  induction k as [|k IH]; intros j fuel c Hfit Hbefore Hfuel;
    (destruct fuel as [|fuel]; [lia|]).
  - rewrite Nat.add_0_r in *. cbn [shrink_font]. cbv zeta.
    unfold exits in Hfit. rewrite Hfit.
    unfold f_descent_of, f_height_of.
    now destruct (context_font_extents font_extents _)
      as [[[[a f_descent] f_height] mx] my].
  - cbn [shrink_font].
    pose proof (Hbefore 0%nat ltac:(lia)) as H0.
    rewrite Nat.add_0_r in H0. unfold exits in H0.
    destruct (context_font_extents font_extents _)
      as [[[[a f_descent] f_height] mx] my].
    rewrite H0.
    change (nth_font_size j - 0.25)%Q with (nth_font_size (S j)).
    replace (j + S k)%nat with (S j + k)%nat in * by lia.
    apply (IH (S j) fuel (cairo_set_font_size (nth_font_size j) c)).
    + exact Hfit.
    + intros i Hi. specialize (Hbefore (S i) ltac:(lia)).
      replace (j + S i)%nat with (S j + i)%nat in Hbefore by lia.
      exact Hbefore.
    + lia.
Qed.

(** With no font size that passes the test, no number of iterations
    reaches the [break]. *)
Lemma shrink_font_never_exits :
  (forall c sz, exits c sz = false) ->
  forall fuel sz c,
    shrink_font font_extents text_extents fuel text width_px sz c = None.
Proof.
  intros Hno. induction fuel as [|fuel IH]; intros sz c.
  - reflexivity.
  - cbn [shrink_font].
    destruct (context_font_extents font_extents _)
      as [[[[a f_descent] f_height] mx] my].
    specialize (Hno c sz). unfold exits in Hno. rewrite Hno. apply IH.
Qed.

End ShrinkFont.

(** X12. For a non-empty attribution, when the k-th font size of the ladder
    9.0, 8.75, 8.5, ... is the first at which the measured text width is
    below viewport_width - 4, [render_attribution] returns once more than k
    iterations are allowed and calls no collaborator; the font size it leaves
    is 9 - k/4, the text measured on the context it leaves is narrower than
    viewport_width - 4, and the canvas gains exactly three operations: a fill,
    in the white source at alpha 0.8, of the pending path and a rectangle
    that starts at x = 0 and has the width and height of the image; the whole
    text, once, starting at x = 4, in the black source; a stroke in the black
    source. *)
Theorem render_attribution_fits {D : Type}
    (font_extents : string -> Q -> matrix -> Q * Q * Q * Q * Q)
    (text_extents : string -> Q -> matrix -> string -> TextExtents)
    (WHITE_float_rgb BLACK_float_rgb : Q * Q * Q)
    (trans : Transformer) (text : string) (w : world D) (k fuel : nat) :
  text <> ""%string ->
  fits text_extents (ctm (gs (context w))) text (image_width trans) k = true ->
  (forall j, (j < k)%nat ->
     fits text_extents (ctm (gs (context w))) text (image_width trans) j
     = false) ->
  (k < fuel)%nat ->
  let c := cairo_set_font_size (nth_font_size k)
             (cairo_select_font_face "Sans" (context w)) in
  exists w' banner_top baseline stroked,
    render_attribution font_extents text_extents WHITE_float_rgb
      BLACK_float_rgb fuel trans (Some text) w = Some (w', Ok tt) /\
    trace w' = trace w /\ provider w' = provider w /\
    font_size (gs (context w')) = nth_font_size k /\
    (nth_font_size k == 9.0 - inject_Z (Z.of_nat k) * 0.25)%Q /\
    (width (context_text_extents text_extents (context w') text)
     < inject_Z (image_width trans - 4))%Q /\
    canvas (context w') = canvas (context w) ++
      [ OpFill (path (context w) ++
                  [PRectangle 0 banner_top (inject_Z (image_width trans))
                              (inject_Z (image_height trans))])
               (gs (set_source_rgb WHITE_float_rgb 0.8 c));
        OpShowText text (Some (4%Q, baseline))
                   (gs (set_source_rgb BLACK_float_rgb 1 c));
        OpStroke stroked (gs (set_source_rgb BLACK_float_rgb 1 c)) ].
Proof.
  intros Htext Hfit Hbefore Hfuel c.
  destruct text as [|ch rest]; [contradiction|].
  destruct WHITE_float_rgb as [[wr wg] wb].
  destruct BLACK_float_rgb as [[br bg] bb].
  pose proof (shrink_font_exits font_extents text_extents (String ch rest)
                (image_width trans) k 0 fuel
                (cairo_select_font_face "Sans" (context w))) as Hloop.
  cbn [Nat.add] in Hloop. specialize (Hloop Hfit Hbefore Hfuel).
  cbv zeta in Hloop. fold c in Hloop.
  change (nth_font_size 0) with 9.0%Q in Hloop.
  eexists. eexists. eexists. eexists. split.
  - unfold render_attribution, image_size. rewrite Hloop. reflexivity.
  - cbn [context trace provider].
    split; [reflexivity|]. split; [reflexivity|].
    split; [reflexivity|]. split; [apply nth_font_size_closed|].
    split; [apply Qlt_bool_iff; exact Hfit|].
    unfold draw_attribution, set_source_rgb, cairo_stroke, cairo_show_text,
      cairo_fill, clear_path, draw.
    cbn [canvas path gs cairo_move_to cairo_rectangle cairo_set_source with_gs
         current_point path_move_to].
    rewrite <- !app_assoc. reflexivity.
Qed.

(** X12 on a 20-pixel viewport: four glyphs fit at the sixth font size, 7.75. *)
Lemma render_attribution_fits_sample :
  "abcd"%string <> ""%string /\
  fits half_em_text_extents identity_matrix "abcd" 20 5 = true /\
  (forall j, (j < 5)%nat ->
     fits half_em_text_extents identity_matrix "abcd" 20 j = false) /\
  exists w',
    render_attribution half_em_font_extents half_em_text_extents
      (1, 1, 1)%Q (0, 0, 0)%Q 6 banner_trans (Some "abcd"%string) fresh_world
    = Some (w', Ok tt) /\
    font_size (gs (context w')) = nth_font_size 5.
Proof.
  assert (Htext : "abcd"%string <> ""%string) by discriminate.
  assert (Hfit : fits half_em_text_extents (ctm (gs (context fresh_world)))
                   "abcd" (image_width banner_trans) 5 = true)
    by (vm_compute; reflexivity).
  assert (Hbefore : forall j, (j < 5)%nat ->
            fits half_em_text_extents (ctm (gs (context fresh_world)))
              "abcd" (image_width banner_trans) j = false).
  { intros j Hj.
    do 5 (destruct j as [|j]; [vm_compute; reflexivity|]). lia. }
  split; [exact Htext|]. split; [exact Hfit|]. split; [exact Hbefore|].
  destruct (render_attribution_fits half_em_font_extents half_em_text_extents
              (1, 1, 1)%Q (0, 0, 0)%Q banner_trans "abcd" fresh_world 5 6
              Htext Hfit Hbefore (le_n 6))
    as (w' & top & base & stroked & Hrun & _ & _ & Hsize & _).
  exists w'. split; [exact Hrun|exact Hsize].
Defined.

(** With a viewport at most 4 pixels wide and a text measure that is never
    negative, the exit test is false at every font size, and no number of
    iterations makes [render_attribution] return. *)
Lemma render_attribution_never_returns {D : Type}
    (font_extents : string -> Q -> matrix -> Q * Q * Q * Q * Q)
    (text_extents : string -> Q -> matrix -> string -> TextExtents)
    (WHITE_float_rgb BLACK_float_rgb : Q * Q * Q)
    (trans : Transformer) (text : string) (w : world D) :
  text <> ""%string ->
  image_width trans <= 4 ->
  (forall face sz m, (0 <= width (text_extents face sz m text))%Q) ->
  forall fuel,
    render_attribution font_extents text_extents WHITE_float_rgb
      BLACK_float_rgb fuel trans (Some text) w = None.
Proof.
  intros Htext Hnarrow Hwidth fuel. unfold render_attribution, image_size.
  rewrite shrink_font_never_exits.
  - destruct text; [contradiction|reflexivity].
  - intros c sz. unfold exits.
    destruct (Qlt_bool _ _) eqn:E; [|reflexivity].
    apply Qlt_bool_iff in E. exfalso.
    apply (Qlt_not_le _ _ E).
    apply Qle_trans with 0%Q; [|apply Hwidth].
    change 0%Q with (inject_Z 0). rewrite <- Zle_Qle. lia.
Qed.

(** C9 fails on the code: for a viewport 4 pixels wide and a text measure
    that is never negative, no number of iterations of the shrinking loop
    makes [render_attribution] return. *)
Theorem render_attribution_diverges_on_narrow_viewport :
  forall fuel : nat,
    render_attribution half_em_font_extents half_em_text_extents
      (1, 1, 1)%Q (0, 0, 0)%Q fuel narrow_trans (Some "x"%string)
      fresh_world = None.
Proof.
  apply render_attribution_never_returns.
  - discriminate.
  - simpl. lia.
  - intros face sz m. unfold half_em_text_extents. cbn [width].
    apply Qmult_le_0_compat; [|discriminate].
    apply Qmult_le_0_compat; [apply Qabs_nonneg|discriminate].
Qed.

(** C6 fails on the code, by the defect of C9: on a viewport 4 pixels wide
    the text "abcd" does not fit at the initial font size, and no number of
    shrinking steps makes [render_attribution] return, so there is no final
    rendered text whose width could be at most viewport_width - 4. *)
Theorem render_attribution_never_fits_narrow_viewport :
  fits half_em_text_extents identity_matrix "abcd"
       (image_width narrow_trans) 0 = false /\
  forall fuel : nat,
    render_attribution half_em_font_extents half_em_text_extents
      (1, 1, 1)%Q (0, 0, 0)%Q fuel narrow_trans (Some "abcd"%string)
      fresh_world = None.
Proof.
  split; [vm_compute; reflexivity|].
  apply render_attribution_never_returns.
  - discriminate.
  - simpl. lia.
  - intros face sz m. unfold half_em_text_extents. cbn [width].
    apply Qmult_le_0_compat; [|discriminate].
    apply Qmult_le_0_compat; [apply Qabs_nonneg|discriminate].
Qed.

(** ** render_tiles as a whole *)

(** X4. When the download callback and the decoding raise nothing but
    RuntimeErrors, [render_tiles] returns normally. *)
Corollary render_tiles_returns {D : Type}
    (PIL_Image_open : bytes -> result PIL_Image)
    (PIL_Image_save_PNG : PIL_Image -> result bytes)
    (create_from_png : bytes -> result ImageSurface)
    (trans : Transformer) (download : download_fn D)
    (objects : list Object) (tighten : bool) (w : world D) :
  (forall d z x y d' e,
     download d z x y = (d', Raise e) -> isinstance_RuntimeError e = true) ->
  (forall data e,
     create_image PIL_Image_open PIL_Image_save_PNG create_from_png data
       = Raise e -> isinstance_RuntimeError e = true) ->
  snd (render_tiles PIL_Image_open PIL_Image_save_PNG create_from_png
         trans download objects tighten w) = Ok tt.
Proof.
  intros Hdl Himg. rewrite render_tiles_cells. unfold render_cells.
  apply for_each_Ok. intros [yy xx] s Hc.
  apply in_tile_cells in Hc. destruct Hc as (_ & _ & Hy).
  cbn [fst snd]. rewrite render_tile_cell_cases by lia. cbv zeta.
  destruct (download _ _ _ _) as [d [[data|]|e]] eqn:Ed.
  - destruct (create_image _ _ _ data) as [img|e] eqn:Ei; [reflexivity|].
    cbn [snd]. now rewrite (Himg _ _ Ei).
  - reflexivity.
  - cbn [snd]. now rewrite (Hdl _ _ _ _ _ _ Ed).
Qed.

(** * Further properties of the renderer *)

(** ** render_tiles: requests and paints *)

Lemma length_flat_map_bound {A B} (f : A -> list B) (l : list A) (m : nat) :
  (forall a, In a l -> (length (f a) <= m)%nat) ->
  (length (flat_map f l) <= length l * m)%nat.
Proof.
  induction l as [|a l IH]; intros H; simpl.
  - lia.
  - rewrite length_app.
    pose proof (H a (or_introl eq_refl)).
    assert (length (flat_map f l) <= length l * m)%nat
      by (apply IH; intros b Hb; apply H; now right).
    lia.
Qed.

Lemma length_tile_cells (trans : Transformer) :
  (length (tile_cells trans)
   <= Z.to_nat (tiles_y trans) * Z.to_nat (tiles_x trans))%nat.
Proof.
  unfold tile_cells.
  replace (Z.to_nat (tiles_y trans))
    with (length (py_range 0 (tiles_y trans)))
    by (rewrite length_py_range; f_equal; lia).
  apply length_flat_map_bound. intros yy _.
  destruct ((first_tile_y trans + yy <? 0)
            || (first_tile_y trans + yy >=? number_of_tiles trans)).
  - simpl. lia.
  - rewrite length_map, length_py_range.
    replace (tiles_x trans - 0) with (tiles_x trans) by lia. lia.
Qed.

Section RenderTilesWhole.

Context {D : Type}.
Variable PIL_Image_open : bytes -> result PIL_Image.
Variable PIL_Image_save_PNG : PIL_Image -> result bytes.
Variable create_from_png : bytes -> result ImageSurface.
Variable trans : Transformer.
Variable download : download_fn D.

Local Abbreviation create_image' :=
  (create_image PIL_Image_open PIL_Image_save_PNG create_from_png).
Local Abbreviation render_tile_cell' :=
  (render_tile_cell PIL_Image_open PIL_Image_save_PNG create_from_png
                    trans download).
Local Abbreviation render_cells' :=
  (render_cells PIL_Image_open PIL_Image_save_PNG create_from_png
                trans download).

(** However a run over cells ends, it has requested the first k of them,
    once each and in order. *)
Lemma render_cells_requests_prefix (cells : list (Z * Z)) :
  number_of_tiles trans <> 0 ->
  forall w : world D,
    exists k, (k <= length cells)%nat /\
      trace (fst (render_cells' cells w))
      = trace w ++ map (tile_request trans) (firstn k cells).
Proof.
  intros Hn. induction cells as [|[yy xx] rest IH]; intros w.
  - exists 0%nat. simpl. split; [lia|]. now rewrite app_nil_r.
  - unfold render_cells. cbn [for_each fst snd]. unfold bind.
    pose proof (render_tile_cell_frame PIL_Image_open PIL_Image_save_PNG
                  create_from_png trans download yy
                  (first_tile_y trans + yy) xx w Hn) as (Ht & _).
    destruct (render_tile_cell' yy (first_tile_y trans + yy) xx w)
      as [w1 [[]|e]]; cbn [fst] in Ht.
    + destruct (IH w1) as (k & Hk & Hrest).
      exists (S k). split; [simpl; lia|].
      unfold render_cells in Hrest. rewrite Hrest, Ht, <- app_assoc.
      reflexivity.
    + exists 1%nat. split; [simpl; lia|]. cbn [fst]. rewrite Ht. reflexivity.
Qed.

(** What a run over in-range cells leaves: the graphics state, the stack of
    saved states, the path and the current point as they were, and a canvas
    that gained nothing but tile paints. *)
Lemma render_cells_only_paints (cells : list (Z * Z)) (w : world D) :
  number_of_tiles trans <> 0 ->
  let w' := fst (render_cells' cells w) in
  gs (context w') = gs (context w) /\
  saved (context w') = saved (context w) /\
  path (context w') = path (context w) /\
  current_point (context w') = current_point (context w) /\
  exists paints,
    canvas (context w') = canvas (context w) ++ paints /\
    Forall (fun op => exists yy xx img,
              In (yy, xx) cells /\
              op = tile_paint_op trans (gs (context w)) yy xx img) paints.
Proof.
  intros Hn. cbv zeta. unfold render_cells.
  apply (for_each_preserves
           (fun s : world D =>
              gs (context s) = gs (context w) /\
              saved (context s) = saved (context w) /\
              path (context s) = path (context w) /\
              current_point (context s) = current_point (context w) /\
              exists paints,
                canvas (context s) = canvas (context w) ++ paints /\
                Forall (fun op => exists yy xx img,
                          In (yy, xx) cells /\
                          op = tile_paint_op trans (gs (context w)) yy xx img)
                       paints)).
  - intros [yy xx] s Hc (Hg & Hsv & Hp & Hcp & paints & Hcv & Hall).
    cbn [fst snd]. rewrite render_tile_cell_cases by assumption. cbv zeta.
    destruct (download _ _ _ _) as [d [[data|]|e]];
      try (cbn [fst downloaded context]; eauto 10).
    destruct (create_image' data) as [img|e];
      [|cbn [fst downloaded context]; eauto 10].
    cbn [fst context paint_tile]. unfold paint_tile, draw.
    cbn [gs saved path current_point canvas].
    repeat (split; [assumption|]).
    exists (paints ++ [tile_paint_op trans (gs (context w)) yy xx img]).
    split.
    + rewrite Hcv, <- app_assoc, Hg. reflexivity.
    + apply Forall_app. split; [exact Hall|].
      constructor; [|constructor]. now exists yy, xx, img.
  - repeat (split; [reflexivity|]). exists []. now rewrite app_nil_r.
Qed.

(** With a provider that has a tile for every request and a codec that
    decodes every tile, a run over in-range cells returns and paints each
    cell once, in order. *)
Lemma render_cells_paints_all (tile : Z -> Z -> bytes)
    (img : Z -> Z -> ImageSurface) (cells : list (Z * Z)) :
  number_of_tiles trans <> 0 ->
  (forall d x y, snd (download d (zoom trans) x y) = Ok (Some (tile x y))) ->
  (forall x y, create_image' (tile x y) = Ok (img x y)) ->
  forall w : world D,
    exists w',
      render_cells' cells w = (w', Ok tt) /\
      gs (context w') = gs (context w) /\
      canvas (context w') = canvas (context w) ++
        map (fun c => tile_paint_op trans (gs (context w)) (fst c) (snd c)
                        (img ((first_tile_x trans + snd c)
                                mod number_of_tiles trans)
                             (first_tile_y trans + fst c)))
            cells.
Proof.
  intros Hn Hdl Himg. induction cells as [|[yy xx] rest IH]; intros w.
  - exists w. simpl. rewrite app_nil_r. auto.
  - unfold render_cells. cbn [for_each fst snd]. unfold bind.
    rewrite render_tile_cell_cases by assumption. cbv zeta.
    pose proof (Hdl (provider w)
                  ((first_tile_x trans + xx) mod number_of_tiles trans)
                  (first_tile_y trans + yy)) as Hd.
    destruct (download _ _ _ _) as [d r]. cbn [snd] in Hd. subst r.
    rewrite Himg.
    match goal with
    | |- context [for_each rest _ ?s] => destruct (IH s) as (w' & Hrun & Hg & Hcv)
    end.
    exists w'. unfold render_cells in Hrun. rewrite Hrun.
    split; [reflexivity|].
    cbn [context paint_tile] in Hg, Hcv. unfold paint_tile, draw in Hg, Hcv.
    cbn [gs canvas] in Hg, Hcv.
    split; [exact Hg|].
    rewrite Hcv, <- app_assoc. reflexivity.
Qed.

End RenderTilesWhole.

(** X1. However [render_tiles] ends, the download requests it has made are
    those of the first k cells of the tile window, in row-major order and
    once per cell, for some k that is at most tiles_y * tiles_x. *)
Theorem render_tiles_requests_prefix {D : Type}
    (PIL_Image_open : bytes -> result PIL_Image)
    (PIL_Image_save_PNG : PIL_Image -> result bytes)
    (create_from_png : bytes -> result ImageSurface)
    (trans : Transformer) (download : download_fn D)
    (objects : list Object) (tighten : bool) (w : world D) :
  exists k,
    (k <= Z.to_nat (tiles_y trans) * Z.to_nat (tiles_x trans))%nat /\
    trace (fst (render_tiles PIL_Image_open PIL_Image_save_PNG create_from_png
                  trans download objects tighten w))
    = trace w ++ map (tile_request trans) (firstn k (tile_cells trans)).
Proof.
  rewrite render_tiles_cells.
  pose proof (length_tile_cells trans) as Hlen.
  destruct (tile_cells trans) as [|[yy xx] rest] eqn:Hcells.
  - exists 0%nat. split; [lia|]. simpl. now rewrite app_nil_r.
  - assert (Hin : In (yy, xx) (tile_cells trans))
      by (rewrite Hcells; now left).
    apply in_tile_cells in Hin. destruct Hin as (_ & _ & Hy).
    destruct (render_cells_requests_prefix PIL_Image_open PIL_Image_save_PNG
                create_from_png trans download ((yy, xx) :: rest)
                ltac:(lia) w) as (k & Hk & Htrace).
    exists k. split; [lia|exact Htrace].
Qed.

(** X2. However [render_tiles] ends, it has left the graphics state, the
    stack of saved states, the path and the current point of the context as
    they were, and everything it has added to the canvas is the paint of a
    tile surface, for a cell of the tile window, under the transformation
    translated by int(xx * tile_size + tile_offset_x) and
    int(yy * tile_size + tile_offset_y). *)
Theorem render_tiles_only_paints {D : Type}
    (PIL_Image_open : bytes -> result PIL_Image)
    (PIL_Image_save_PNG : PIL_Image -> result bytes)
    (create_from_png : bytes -> result ImageSurface)
    (trans : Transformer) (download : download_fn D)
    (objects : list Object) (tighten : bool) (w : world D) :
  let w' := fst (render_tiles PIL_Image_open PIL_Image_save_PNG
                   create_from_png trans download objects tighten w) in
  gs (context w') = gs (context w) /\
  saved (context w') = saved (context w) /\
  path (context w') = path (context w) /\
  current_point (context w') = current_point (context w) /\
  exists paints,
    canvas (context w') = canvas (context w) ++ paints /\
    Forall (fun op => exists yy xx img,
              In (yy, xx) (tile_cells trans) /\
              op = tile_paint_op trans (gs (context w)) yy xx img) paints.
Proof.
  cbv zeta. rewrite render_tiles_cells.
  destruct (tile_cells trans) as [|[yy xx] rest] eqn:Hcells.
  - simpl. repeat (split; [reflexivity|]). exists []. now rewrite app_nil_r.
  - assert (Hin : In (yy, xx) (tile_cells trans))
      by (rewrite Hcells; now left).
    apply in_tile_cells in Hin. destruct Hin as (_ & _ & Hy).
    apply (render_cells_only_paints PIL_Image_open PIL_Image_save_PNG
             create_from_png trans download ((yy, xx) :: rest) w).
    lia.
Qed.

(** X3. When the download callback has a tile for every request and every
    tile decodes, [render_tiles] returns normally and the canvas gains
    exactly one paint per cell of the tile window, in row-major order, each
    of the surface decoded from the tile at the wrapped x and the y of its
    cell. *)
Theorem render_tiles_paints_every_cell {D : Type}
    (PIL_Image_open : bytes -> result PIL_Image)
    (PIL_Image_save_PNG : PIL_Image -> result bytes)
    (create_from_png : bytes -> result ImageSurface)
    (trans : Transformer) (download : download_fn D)
    (objects : list Object) (tighten : bool) (w : world D)
    (tile : Z -> Z -> bytes) (img : Z -> Z -> ImageSurface) :
  (forall d x y, snd (download d (zoom trans) x y) = Ok (Some (tile x y))) ->
  (forall x y,
     create_image PIL_Image_open PIL_Image_save_PNG create_from_png (tile x y)
     = Ok (img x y)) ->
  exists w',
    render_tiles PIL_Image_open PIL_Image_save_PNG create_from_png
      trans download objects tighten w = (w', Ok tt) /\
    canvas (context w') = canvas (context w) ++
      map (fun c => tile_paint_op trans (gs (context w)) (fst c) (snd c)
                      (img ((first_tile_x trans + snd c)
                              mod number_of_tiles trans)
                           (first_tile_y trans + fst c)))
          (tile_cells trans).
Proof.
  intros Hdl Himg. rewrite render_tiles_cells.
  destruct (tile_cells trans) as [|[yy xx] rest] eqn:Hcells.
  - exists w. simpl. rewrite app_nil_r. auto.
  - assert (Hin : In (yy, xx) (tile_cells trans))
      by (rewrite Hcells; now left).
    apply in_tile_cells in Hin. destruct Hin as (_ & _ & Hy).
    destruct (render_cells_paints_all PIL_Image_open PIL_Image_save_PNG
                create_from_png trans download tile img ((yy, xx) :: rest)
                ltac:(lia) Hdl Himg w) as (w' & Hrun & _ & Hcv).
    exists w'. split; [exact Hrun|exact Hcv].
Qed.

(** X3 on the sample viewport: four cells, four paints. *)
Lemma render_tiles_paints_every_cell_sample :
  (forall d x y,
     snd (download_all_png d (zoom sample_trans) x y) = Ok (Some png_tile)) /\
  create_image signature_open signature_save_PNG signature_create_from_png
    png_tile = Ok png_tile_surface /\
  exists w',
    render_tiles signature_open signature_save_PNG signature_create_from_png
      sample_trans download_all_png [] false fresh_world = (w', Ok tt) /\
    length (canvas (context w')) = 4%nat.
Proof.
  assert (Hdl : forall d x y,
            snd (download_all_png d (zoom sample_trans) x y)
            = Ok (Some png_tile)) by reflexivity.
  assert (Himg : forall x y : Z,
            create_image signature_open signature_save_PNG
              signature_create_from_png png_tile = Ok png_tile_surface)
    by reflexivity.
  split; [exact Hdl|]. split; [exact (Himg 0 0)|].
  destruct (render_tiles_paints_every_cell
              signature_open signature_save_PNG signature_create_from_png
              sample_trans download_all_png [] false fresh_world
              (fun _ _ => png_tile) (fun _ _ => png_tile_surface) Hdl Himg)
    as (w' & Hrun & Hcv).
  exists w'. split; [exact Hrun|]. rewrite Hcv. reflexivity.
Defined.

(** X4 on the sample viewport, with the provider that answers the first
    tile with a RuntimeError and the decoder that reports unreadable data
    with a RuntimeError. *)
Lemma render_tiles_returns_sample :
  (forall d z x y d' e,
     download_status_error d z x y = (d', Raise e) ->
     isinstance_RuntimeError e = true) /\
  (forall data e,
     create_image strict_open signature_save_PNG signature_create_from_png
       data = Raise e -> isinstance_RuntimeError e = true) /\
  snd (render_tiles strict_open signature_save_PNG signature_create_from_png
         sample_trans download_status_error [] false fresh_world) = Ok tt.
Proof.
  assert (Hdl : forall d z x y d' e,
            download_status_error d z x y = (d', Raise e) ->
            isinstance_RuntimeError e = true).
  { intros d z x y d' e. unfold download_status_error.
    destruct ((x =? 1) && (y =? 0)); intros [= _ <-]. reflexivity. }
  assert (Himg : forall data e,
            create_image strict_open signature_save_PNG
              signature_create_from_png data = Raise e ->
            isinstance_RuntimeError e = true).
  { intros data e. unfold create_image, strict_open.
    destruct (signature_open data) as [image|e0] eqn:Hopen.
    - destruct data as [|b px]; [discriminate|].
      destruct b; try discriminate; injection Hopen as <-; cbn;
        intros [=].
    - intros [= <-]. reflexivity. }
  split; [exact Hdl|]. split; [exact Himg|].
  exact (render_tiles_returns strict_open signature_save_PNG
           signature_create_from_png sample_trans download_status_error
           [] false fresh_world Hdl Himg).
Defined.

(** ** render_objects: edges and failures *)

Lemma py_range_cons (a b : Z) :
  a < b -> py_range a b = a :: py_range (a + 1) b.
Proof.
  intros Hab. unfold py_range.
  replace (Z.to_nat (b - a)) with (S (Z.to_nat (b - (a + 1)))) by lia.
  cbn [seq map]. f_equal; [lia|].
  rewrite <- seq_shift, map_map. apply map_ext. intros i. lia.
Qed.

(** A run over well-behaved objects also leaves the stack of saved states
    as it was. *)
Lemma render_all_copies_saved {D : Type} (trans : Transformer)
    (objects : list Object) (ps : list Z) (w w' : world D) :
  Forall balanced objects ->
  for_each objects (fun obj =>
    for_each ps (fun p =>
      on_context cairo_save ;;;
      on_context (cairo_translate (inject_Z (p * world_width trans)) 0) ;;;
      call_render_cairo obj ;;;
      context_restore))%py w = (w', Ok tt) ->
  saved (context w') = saved (context w).
Proof.
  intros Hbal Hrun.
  apply (for_each_preserves_Ok
           (fun s : world D => saved (context s) = saved (context w))
           _ _) with (s := w) (s' := w') in Hrun; [exact Hrun| |reflexivity].
  intros obj s s' Hobj Hs Hinner.
  apply (for_each_preserves_Ok
           (fun t : world D => saved (context t) = saved (context w))
           _ _) with (s := s) (s' := s') in Hinner; [exact Hinner| |exact Hs].
  intros p t t' _ Hsv Hstep.
  apply shifted_copy_restores in Hstep.
  - destruct Hstep as [_ ->]. exact Hsv.
  - exact (proj1 (List.Forall_forall _ _) Hbal obj Hobj).
Qed.

(** X5. With objects whose [render_cairo] returns and keeps the stack of
    saved states balanced, the only way [render_objects] fails is a world
    width of zero: it then raises ZeroDivisionError before it touches the
    context or calls any object, the empty list of objects included; with
    any other world width it returns normally. *)
Theorem render_objects_fails_only_on_zero_world_width {D : Type}
    (trans : Transformer) (objects : list Object) (tighten : bool)
    (w : world D) :
  Forall returns_normally objects ->
  Forall balanced objects ->
  (world_width trans = 0 ->
     render_objects trans objects tighten w = (w, Raise ZeroDivisionError)) /\
  (world_width trans = 0 ->
     render_objects trans [] tighten w = (w, Raise ZeroDivisionError)) /\
  (world_width trans <> 0 ->
     snd (render_objects trans objects tighten w) = Ok tt).
Proof.
  intros Hret Hbal. unfold render_objects.
  destruct (Z.eqb_spec (2 * world_width trans) 0) as [E|E].
  - repeat split; try reflexivity. lia.
  - split; [lia|]. split; [lia|]. intros _.
    destruct (render_all_copies trans objects
                (py_range
                   (- math_ceil_div (image_width trans) (2 * world_width trans))
                   (math_ceil_div (image_width trans) (2 * world_width trans) + 1))
                w Hret Hbal) as (w' & Hrun & _).
    now rewrite Hrun.
Qed.

Lemma render_objects_fails_only_on_zero_world_width_sample :
  Forall returns_normally [mark] /\
  Forall balanced [mark] /\
  world_width flat_trans = 0 /\
  render_objects flat_trans [mark] false fresh_world
  = (fresh_world, Raise ZeroDivisionError).
Proof.
  assert (Hret : Forall returns_normally [mark]).
  { constructor; [|constructor]. intros c. reflexivity. }
  assert (Hbal : Forall balanced [mark]).
  { constructor; [|constructor]. intros c c' [= <-]. reflexivity. }
  split; [exact Hret|]. split; [exact Hbal|]. split; [reflexivity|].
  exact (proj1 (render_objects_fails_only_on_zero_world_width flat_trans
                  [mark] false fresh_world Hret Hbal) eq_refl).
Defined.

(** X6. When an object's [render_cairo] raises, [render_objects] raises the
    same exception at that object's first world copy: the objects before it
    have had all their copies rendered, the failing object has been called
    once, at offset -x_count, the objects after it are never called, and the
    state saved for that copy is still on the stack (no [restore] is run). *)
Theorem render_objects_raise_skips_restore {D : Type} (trans : Transformer)
    (before after : list Object) (obj : Object) (tighten : bool)
    (w : world D) (e : exn_class) :
  0 < world_width trans ->
  0 <= image_width trans ->
  Forall returns_normally before ->
  Forall balanced before ->
  (forall c, snd (render_cairo obj c) = Raise e) ->
  (forall c, saved (fst (render_cairo obj c)) = saved c) ->
  let x_count := math_ceil_div (image_width trans) (2 * world_width trans) in
  let calls (o : Object) :=
    map (fun p => EvRenderCairo (obj_id o)
                    (matrix_translate (ctm (gs (context w)))
                                      (inject_Z (p * world_width trans)) 0))
        (py_range (- x_count) (x_count + 1)) in
  exists w',
    render_objects trans (before ++ obj :: after) tighten w = (w', Raise e) /\
    trace w' = trace w ++ flat_map calls before ++
      [EvRenderCairo (obj_id obj)
         (matrix_translate (ctm (gs (context w)))
                           (inject_Z (- x_count * world_width trans)) 0)] /\
    saved (context w') = gs (context w) :: saved (context w).
Proof.
  intros Hww Hiw Hret Hbal Hraise Hstack x_count calls.
  assert (Hb : (x_count - 1) * (2 * world_width trans) < image_width trans
               <= x_count * (2 * world_width trans))
    by (apply math_ceil_div_bounds; lia).
  assert (Hx : 0 <= x_count) by nia.
  unfold render_objects.
  destruct (Z.eqb_spec (2 * world_width trans) 0) as [E|_]; [lia|].
  fold x_count. rewrite for_each_app.
  destruct (render_all_copies trans before
              (py_range (- x_count) (x_count + 1)) w Hret Hbal)
    as (w1 & Hrun & Hgs & Htrace).
  pose proof (render_all_copies_saved trans before _ w w1 Hbal Hrun) as Hsaved.
  rewrite Hrun. cbn [for_each]. unfold bind at 1.
  rewrite (py_range_cons (- x_count) (x_count + 1)) by lia.
  cbn [for_each]. unfold bind, on_context, call_render_cairo. cbn [context].
  pose proof (Hraise (cairo_translate
                        (inject_Z (- x_count * world_width trans)) 0
                        (cairo_save (context w1)))) as Hr.
  pose proof (Hstack (cairo_translate
                        (inject_Z (- x_count * world_width trans)) 0
                        (cairo_save (context w1)))) as Hs.
  destruct (render_cairo obj _) as [c r]. cbn [fst snd] in Hr, Hs. subst r.
  eexists. split; [reflexivity|]. cbn [trace context].
  split.
  - rewrite Htrace, <- app_assoc. cbn [cairo_translate cairo_save with_gs gs ctm].
    rewrite Hgs. reflexivity.
  - rewrite Hs. cbn [cairo_translate cairo_save with_gs saved gs].
    now rewrite Hgs, Hsaved.
Qed.

Lemma render_objects_raise_skips_restore_sample :
  0 < world_width sample_trans /\
  0 <= image_width sample_trans /\
  Forall returns_normally [mark] /\
  Forall balanced [mark] /\
  (forall c, snd (render_cairo failing c) = Raise ValueError) /\
  (forall c, saved (fst (render_cairo failing c)) = saved c) /\
  exists w',
    render_objects sample_trans ([mark] ++ failing :: [mark]) false fresh_world
    = (w', Raise ValueError) /\
    length (trace w') = 4%nat /\
    length (saved (context w')) = 1%nat.
Proof.
  assert (Hww : 0 < world_width sample_trans) by reflexivity.
  assert (Hiw : 0 <= image_width sample_trans) by (simpl; lia).
  assert (Hret : Forall returns_normally [mark]).
  { constructor; [|constructor]. intros c. reflexivity. }
  assert (Hbal : Forall balanced [mark]).
  { constructor; [|constructor]. intros c c' [= <-]. reflexivity. }
  assert (Hraise : forall c, snd (render_cairo failing c) = Raise ValueError)
    by reflexivity.
  assert (Hstack : forall c, saved (fst (render_cairo failing c)) = saved c)
    by reflexivity.
  repeat (split; [assumption|]).
  destruct (render_objects_raise_skips_restore sample_trans [mark] [mark]
              failing false fresh_world ValueError
              Hww Hiw Hret Hbal Hraise Hstack)
    as (w' & Hrun & Htrace & Hsaved).
  exists w'. split; [exact Hrun|]. rewrite Htrace, Hsaved.
  split; reflexivity.
Defined.

(** X7. For a viewport that is not empty and at most two worlds wide,
    x_count is 1: [render_objects] renders every object three times, at the
    offsets -1, 0 and 1, also when the viewport is narrower than one world. *)
Theorem render_objects_three_copies {D : Type} (trans : Transformer)
    (objects : list Object) (tighten : bool) (w : world D) :
  0 < world_width trans ->
  0 < image_width trans <= 2 * world_width trans ->
  math_ceil_div (image_width trans) (2 * world_width trans) = 1 /\
  render_objects trans objects tighten w
  = for_each objects (fun obj =>
      for_each [-1; 0; 1] (fun p =>
        on_context cairo_save ;;;
        on_context (cairo_translate (inject_Z (p * world_width trans)) 0) ;;;
        call_render_cairo obj ;;;
        context_restore))%py w.
Proof.
  intros Hww Hiw.
  assert (Hx : math_ceil_div (image_width trans) (2 * world_width trans) = 1).
  { pose proof (math_ceil_div_bounds (image_width trans)
                  (2 * world_width trans) ltac:(lia)). nia. }
  split; [exact Hx|].
  unfold render_objects.
  destruct (Z.eqb_spec (2 * world_width trans) 0) as [E|_]; [lia|].
  rewrite Hx. reflexivity.
Qed.

Lemma render_objects_three_copies_sample :
  0 < world_width sample_trans /\
  0 < image_width sample_trans <= 2 * world_width sample_trans /\
  math_ceil_div (image_width sample_trans) (2 * world_width sample_trans) = 1.
Proof.
  assert (Hww : 0 < world_width sample_trans) by reflexivity.
  assert (Hiw : 0 < image_width sample_trans <= 2 * world_width sample_trans)
    by (simpl; lia).
  split; [exact Hww|]. split; [exact Hiw|].
  exact (proj1 (render_objects_three_copies sample_trans [mark] false
                  fresh_world Hww Hiw)).
Defined.

(** ** render_attribution: frame and termination *)

Lemma first_true (P : nat -> bool) (n : nat) :
  P n = true ->
  exists k, (k <= n)%nat /\ P k = true /\
            forall j, (j < k)%nat -> P j = false.
Proof.
  revert P. induction n as [|n IH]; intros P Hn.
  - exists 0%nat. repeat split; auto. intros j Hj. lia.
  - destruct (P 0%nat) eqn:H0.
    + exists 0%nat. repeat split; auto; [lia|]. intros j Hj. lia.
    + destruct (IH (fun i => P (S i)) Hn) as (k & Hk & Hpk & Hlt).
      exists (S k). repeat split; auto; [lia|].
      intros [|j] Hj; [exact H0|]. apply Hlt. lia.
Qed.

(** The loop changes nothing of the context but the font size. *)
Lemma shrink_font_frame
    (font_extents : string -> Q -> matrix -> Q * Q * Q * Q * Q)
    (text_extents : string -> Q -> matrix -> string -> TextExtents)
    (text : string) (width_px : Z) (fuel : nat) :
  forall (sz : Q) (c c' : cairo_context) (d h : Q),
    shrink_font font_extents text_extents fuel text width_px sz c
      = Some (c', d, h) ->
    exists sz', c' = cairo_set_font_size sz' c.
Proof.
  induction fuel as [|fuel IH]; intros sz c c' d h; [discriminate|].
  cbn [shrink_font].
  destruct (context_font_extents font_extents _)
    as [[[[a f_descent] f_height] mx] my].
  destruct (Qlt_bool _ _).
  - intros [= <- _ _]. now exists sz.
  - intros Hrec. apply IH in Hrec. destruct Hrec as (sz' & ->).
    now exists sz'.
Qed.

(** X8. [render_attribution] with no attribution or the empty string
    returns at once and changes nothing. With a text, whenever it returns it
    returns normally, has made no call to a collaborator, and has left the
    transformation matrix and the stack of saved states as they were; it
    leaves the font face "Sans", the black source and an empty path behind
    (it does not restore what it set). *)
Theorem render_attribution_frame {D : Type}
    (font_extents : string -> Q -> matrix -> Q * Q * Q * Q * Q)
    (text_extents : string -> Q -> matrix -> string -> TextExtents)
    (WHITE_float_rgb BLACK_float_rgb : Q * Q * Q)
    (trans : Transformer) (w : world D) :
  (forall fuel,
     render_attribution font_extents text_extents WHITE_float_rgb
       BLACK_float_rgb fuel trans None w = Some (w, Ok tt) /\
     render_attribution font_extents text_extents WHITE_float_rgb
       BLACK_float_rgb fuel trans (Some ""%string) w = Some (w, Ok tt)) /\
  (forall fuel text w' r,
     text <> ""%string ->
     render_attribution font_extents text_extents WHITE_float_rgb
       BLACK_float_rgb fuel trans (Some text) w = Some (w', r) ->
     r = Ok tt /\
     trace w' = trace w /\ provider w' = provider w /\
     ctm (gs (context w')) = ctm (gs (context w)) /\
     saved (context w') = saved (context w) /\
     font_face (gs (context w')) = "Sans"%string /\
     source (gs (context w'))
       = source (gs (set_source_rgb BLACK_float_rgb 1 (context w))) /\
     path (context w') = []).
Proof.
  split; [intros fuel; split; reflexivity|].
  intros fuel text w' r Htext. unfold render_attribution, image_size.
  destruct text as [|ch rest]; [contradiction|].
  destruct (shrink_font _ _ _ _ _ _ _) as [[[c1 d] h]|] eqn:Hloop;
    [|discriminate].
  apply shrink_font_frame in Hloop. destruct Hloop as (sz' & ->).
  intros [= <- <-].
  destruct WHITE_float_rgb as [[wr wg] wb].
  destruct BLACK_float_rgb as [[br bg] bb].
  repeat split.
Qed.

(** X9. For a non-empty attribution, a viewport wider than 4 pixels and a
    text measure that gives no width at font size zero, the shrinking loop
    exits within 37 iterations: [render_attribution] returns normally for
    every fuel above 36, at one of the font sizes 9.0, 8.75, ..., 0, never
    at a negative one. *)
Theorem render_attribution_terminates_on_wide_viewport {D : Type}
    (font_extents : string -> Q -> matrix -> Q * Q * Q * Q * Q)
    (text_extents : string -> Q -> matrix -> string -> TextExtents)
    (WHITE_float_rgb BLACK_float_rgb : Q * Q * Q)
    (trans : Transformer) (text : string) (w : world D) (fuel : nat) :
  text <> ""%string ->
  4 < image_width trans ->
  (forall face sz m,
     (sz == 0)%Q -> (width (text_extents face sz m text) <= 0)%Q) ->
  (36 < fuel)%nat ->
  exists k w',
    (k <= 36)%nat /\
    render_attribution font_extents text_extents WHITE_float_rgb
      BLACK_float_rgb fuel trans (Some text) w = Some (w', Ok tt) /\
    font_size (gs (context w')) = nth_font_size k /\
    (0 <= nth_font_size k)%Q.
Proof.
  intros Htext Hwide Hzero Hfuel.
  destruct text as [|ch rest]; [contradiction|].
  set (text := String ch rest) in *.
  destruct WHITE_float_rgb as [[wr wg] wb].
  destruct BLACK_float_rgb as [[br bg] bb].
  set (c0 := cairo_select_font_face "Sans" (context w)).
  assert (H36 : exits text_extents text (image_width trans) c0
                  (nth_font_size 36) = true).
  { unfold exits. apply Qlt_bool_iff.
    apply Qle_lt_trans with 0%Q.
    - apply Hzero. vm_compute. reflexivity.
    - change 0%Q with (inject_Z 0). rewrite <- Zlt_Qlt. lia. }
  destruct (first_true
              (fun k => exits text_extents text (image_width trans) c0
                          (nth_font_size k)) 36 H36)
    as (k & Hk & Hfit & Hbefore).
  pose proof (shrink_font_exits font_extents text_extents text
                (image_width trans) k 0 fuel c0 Hfit Hbefore ltac:(lia))
    as Hloop.
  cbv zeta in Hloop. cbn [Nat.add] in Hloop.
  change (nth_font_size 0) with 9.0%Q in Hloop.
  exists k. eexists. split; [exact Hk|]. split.
  - unfold render_attribution, image_size. fold c0. rewrite Hloop.
    reflexivity.
  - cbn [context]. split.
    + reflexivity.
    + rewrite nth_font_size_closed.
      assert (E : (9.0 - inject_Z (Z.of_nat k) * 0.25
                   == inject_Z (36 - Z.of_nat k) * 0.25)%Q).
      { unfold Z.sub. rewrite inject_Z_plus, inject_Z_opp.
        change (inject_Z 36) with 36%Q. ring. }
      rewrite E. apply Qmult_le_0_compat; [|discriminate].
      change 0%Q with (inject_Z 0). rewrite <- Zle_Qle. lia.
Qed.

Lemma render_attribution_terminates_on_wide_viewport_sample :
  "abcd"%string <> ""%string /\
  4 < image_width banner_trans /\
  (forall face sz m,
     (sz == 0)%Q ->
     (width (half_em_text_extents face sz m "abcd") <= 0)%Q) /\
  exists k w',
    (k <= 36)%nat /\
    render_attribution half_em_font_extents half_em_text_extents
      (1, 1, 1)%Q (0, 0, 0)%Q 37 banner_trans (Some "abcd"%string) fresh_world
    = Some (w', Ok tt).
Proof.
  assert (Htext : "abcd"%string <> ""%string) by discriminate.
  assert (Hwide : 4 < image_width banner_trans) by reflexivity.
  assert (Hzero : forall face sz m,
            (sz == 0)%Q ->
            (width (half_em_text_extents face sz m "abcd") <= 0)%Q).
  { intros face sz m Hsz. unfold half_em_text_extents. cbn [width].
    rewrite Hsz. discriminate. }
  split; [exact Htext|]. split; [exact Hwide|]. split; [exact Hzero|].
  destruct (render_attribution_terminates_on_wide_viewport
              half_em_font_extents half_em_text_extents
              (1, 1, 1)%Q (0, 0, 0)%Q banner_trans "abcd" fresh_world 37
              Htext Hwide Hzero (le_n 37))
    as (k & w' & Hk & Hrun & _).
  exists k, w'. split; [exact Hk|exact Hrun].
Defined.

(** ** render_background *)

(** X10. [render_background] never raises and makes no call to a
    collaborator; it leaves the transformation matrix and the stack of saved
    states as they were. With no color it changes nothing. With a color the
    canvas gains exactly one fill, in that color at full opacity, of the
    pending path followed by the rectangle (0, 0, image width, image
    height), and the path is left empty. *)
Theorem render_background_fills_viewport {D Color : Type}
    (float_rgb : Color -> Q * Q * Q) (trans : Transformer)
    (color : option Color) (w : world D) :
  let w' := fst (render_background float_rgb trans color w) in
  snd (render_background float_rgb trans color w) = Ok tt /\
  trace w' = trace w /\ provider w' = provider w /\
  ctm (gs (context w')) = ctm (gs (context w)) /\
  saved (context w') = saved (context w) /\
  match color with
  | None => w' = w
  | Some col =>
      canvas (context w') = canvas (context w) ++
        [OpFill (path (context w) ++
                   [PRectangle 0 0 (inject_Z (image_width trans))
                               (inject_Z (image_height trans))])
                (gs (set_source_rgb (float_rgb col) 1 (context w)))] /\
      path (context w') = []
  end.
Proof.
  destruct color as [col|]; [|repeat split].
  unfold render_background, image_size, bind, on_context. cbn [fst snd].
  destruct (float_rgb col) as [[r g] b]. repeat split.
Qed.

(** ** render_tiles: a window wider than the world *)

Lemma NoDup_map_inj_on {A B} (f : A -> B) (l : list A) :
  List.NoDup (map f l) ->
  forall a b, In a l -> In b l -> f a = f b -> a = b.
Proof.
  induction l as [|x l IH]; intros Hnd a b Ha Hb Hf; [contradiction|].
  cbn [map] in Hnd. apply NoDup_cons_iff in Hnd. destruct Hnd as [Hx Hnd].
  destruct Ha as [<-|Ha], Hb as [<-|Hb].
  - reflexivity.
  - exfalso. apply Hx. rewrite Hf. now apply in_map.
  - exfalso. apply Hx. rewrite <- Hf. now apply in_map.
  - now apply IH.
Qed.

(** X11. The tile loop does not remember what it has requested: when the
    tile window has more columns than the world has tiles and one of its
    rows is inside the grid, a [render_tiles] that returns has requested
    some tile more than once (the columns xx and xx + number_of_tiles of a
    row ask for the same tile). *)
Theorem render_tiles_requests_repeat {D : Type}
    (PIL_Image_open : bytes -> result PIL_Image)
    (PIL_Image_save_PNG : PIL_Image -> result bytes)
    (create_from_png : bytes -> result ImageSurface)
    (trans : Transformer) (download : download_fn D)
    (objects : list Object) (tighten : bool) (w w' : world D) (yy : Z) :
  0 < number_of_tiles trans < tiles_x trans ->
  0 <= yy < tiles_y trans ->
  0 <= first_tile_y trans + yy < number_of_tiles trans ->
  render_tiles PIL_Image_open PIL_Image_save_PNG create_from_png
    trans download objects tighten w = (w', Ok tt) ->
  tile_request trans (yy, 0 + number_of_tiles trans)
    = tile_request trans (yy, 0) /\
  exists requests,
    trace w' = trace w ++ requests /\ ~ List.NoDup requests.
Proof.
  intros Hn Hyy Hy Hrun.
  assert (Hsame : tile_request trans (yy, 0 + number_of_tiles trans)
                  = tile_request trans (yy, 0)).
  { unfold tile_request. cbn [fst snd]. f_equal.
    rewrite Z.add_assoc.
    rewrite <- (Z.mul_1_l (number_of_tiles trans)) at 1.
    apply Z_mod_plus_full. }
  split; [exact Hsame|].
  rewrite render_tiles_cells in Hrun.
  apply render_cells_trace in Hrun; [|lia].
  exists (map (tile_request trans) (tile_cells trans)).
  split; [exact Hrun|]. intros Hnd.
  assert (H0 : In (yy, 0) (tile_cells trans))
    by (apply in_tile_cells; lia).
  assert (H1 : In (yy, 0 + number_of_tiles trans) (tile_cells trans))
    by (apply in_tile_cells; lia).
  pose proof (NoDup_map_inj_on _ _ Hnd _ _ H1 H0 Hsame) as E.
  injection E as E. lia.
Qed.

Lemma render_tiles_requests_repeat_sample :
  0 < number_of_tiles world_trans < tiles_x world_trans /\
  0 <= 0 < tiles_y world_trans /\
  0 <= first_tile_y world_trans + 0 < number_of_tiles world_trans /\
  exists requests,
    trace (fst (render_tiles signature_open signature_save_PNG
                  signature_create_from_png world_trans download_all_png
                  [] false fresh_world))
    = trace fresh_world ++ requests /\ ~ List.NoDup requests.
Proof.
  assert (Hn : 0 < number_of_tiles world_trans < tiles_x world_trans)
    by (simpl; lia).
  assert (Hyy : 0 <= 0 < tiles_y world_trans) by (simpl; lia).
  assert (Hy : 0 <= first_tile_y world_trans + 0
               < number_of_tiles world_trans) by (simpl; lia).
  assert (Hrun :
    render_tiles signature_open signature_save_PNG signature_create_from_png
      world_trans download_all_png [] false fresh_world
    = (fst (render_tiles signature_open signature_save_PNG
              signature_create_from_png world_trans download_all_png
              [] false fresh_world), Ok tt))
    by (vm_compute; reflexivity).
  split; [exact Hn|]. split; [exact Hyy|]. split; [exact Hy|].
  exact (proj2 (render_tiles_requests_repeat
                  signature_open signature_save_PNG signature_create_from_png
                  world_trans download_all_png [] false fresh_world _ 0
                  Hn Hyy Hy Hrun)).
Defined.
